(** * SerLCD0: non-blocking OpenLCD driver (SerLCD0.h / SerLCD0.cpp)

    A shallow embedding of the command queue, the dispatch state machine and
    the error/recovery logic of the driver, with the I2C bus, the millisecond
    clock and the debug serial port as an explicit environment, followed by
    the properties of the driver. *)

From Stdlib Require Import ZArith Lia Bool List String.
From stdpp Require Import base list.
Import ListNotations.

Local Open Scope Z_scope.

(** ** Fixed-width integers *)

(** [uint8_t] values are kept in [Z]; every place where C++ converts an
    [int] result back to [uint8_t] is written with [u8].  [unsigned long] is
    32 bits wide on the boards the header targets. *)
Definition u8 (x : Z) : Z := x mod 256.
Definition ulong (x : Z) : Z := x mod 2 ^ 32.

(** ** SerLCD0.h: data *)

Inductive CmdType := NONE | WRITE_CHAR | SPECIAL_CMD | SETTING_CMD | RGB_CMD.

(** [struct LCDCommand]; [data_0], [data_1], [data_2] are [data[0..2]]. *)
Record LCDCommand := mkLCDCommand {
  type : CmdType;
  data_0 : Z;
  data_1 : Z;
  data_2 : Z;
  dataLen : Z
}.

Definition set_type (v : CmdType) (c : LCDCommand) : LCDCommand :=
  mkLCDCommand v (data_0 c) (data_1 c) (data_2 c) (dataLen c).
Definition set_data_0 (v : Z) (c : LCDCommand) : LCDCommand :=
  mkLCDCommand (type c) v (data_1 c) (data_2 c) (dataLen c).
Definition set_data_1 (v : Z) (c : LCDCommand) : LCDCommand :=
  mkLCDCommand (type c) (data_0 c) v (data_2 c) (dataLen c).
Definition set_data_2 (v : Z) (c : LCDCommand) : LCDCommand :=
  mkLCDCommand (type c) (data_0 c) (data_1 c) v (dataLen c).
Definition set_dataLen (v : Z) (c : LCDCommand) : LCDCommand :=
  mkLCDCommand (type c) (data_0 c) (data_1 c) (data_2 c) v.

Inductive State := READY | PROCESSING | AWAITING_RESPONSE | ERROR.

Definition State_eqb (a b : State) : bool :=
  match a, b with
  | READY, READY | PROCESSING, PROCESSING
  | AWAITING_RESPONSE, AWAITING_RESPONSE | ERROR, ERROR => true
  | _, _ => false
  end.

Definition QUEUE_SIZE : Z := 32.
Definition SPECIAL_COMMAND : Z := 254.
Definition SETTING_COMMAND : Z := 0x7C.
Definition CLEAR_COMMAND : Z := 0x01.
Definition HOME_COMMAND : Z := 0x02.
Definition RGB_COMMAND : Z := 0x2B.

(** The instance members of [class SerLCD0].  The driver talks to one bus;
    [_wirePort] only selects it and is not represented. *)
Record SerLCD0 := mkSerLCD0 {
  _cmdQueue : list LCDCommand;
  _queueHead : Z;
  _queueTail : Z;
  _initTime : Z;
  _cmdTime : Z;
  _clearTime : Z;
  _errorResetTime : Z;
  _i2cAddr : Z;
  _state : State;
  _lastActionTime : Z;
  _errorCount : Z;
  _needsFullRefresh : bool
}.

Definition set_cmdQueue v (s : SerLCD0) :=
  mkSerLCD0 v (_queueHead s) (_queueTail s) (_initTime s) (_cmdTime s)
    (_clearTime s) (_errorResetTime s) (_i2cAddr s) (_state s)
    (_lastActionTime s) (_errorCount s) (_needsFullRefresh s).
Definition set_queueHead v (s : SerLCD0) :=
  mkSerLCD0 (_cmdQueue s) v (_queueTail s) (_initTime s) (_cmdTime s)
    (_clearTime s) (_errorResetTime s) (_i2cAddr s) (_state s)
    (_lastActionTime s) (_errorCount s) (_needsFullRefresh s).
Definition set_queueTail v (s : SerLCD0) :=
  mkSerLCD0 (_cmdQueue s) (_queueHead s) v (_initTime s) (_cmdTime s)
    (_clearTime s) (_errorResetTime s) (_i2cAddr s) (_state s)
    (_lastActionTime s) (_errorCount s) (_needsFullRefresh s).
Definition set_initTime v (s : SerLCD0) :=
  mkSerLCD0 (_cmdQueue s) (_queueHead s) (_queueTail s) v (_cmdTime s)
    (_clearTime s) (_errorResetTime s) (_i2cAddr s) (_state s)
    (_lastActionTime s) (_errorCount s) (_needsFullRefresh s).
Definition set_cmdTime v (s : SerLCD0) :=
  mkSerLCD0 (_cmdQueue s) (_queueHead s) (_queueTail s) (_initTime s) v
    (_clearTime s) (_errorResetTime s) (_i2cAddr s) (_state s)
    (_lastActionTime s) (_errorCount s) (_needsFullRefresh s).
Definition set_clearTime v (s : SerLCD0) :=
  mkSerLCD0 (_cmdQueue s) (_queueHead s) (_queueTail s) (_initTime s)
    (_cmdTime s) v (_errorResetTime s) (_i2cAddr s) (_state s)
    (_lastActionTime s) (_errorCount s) (_needsFullRefresh s).
Definition set_errorResetTime v (s : SerLCD0) :=
  mkSerLCD0 (_cmdQueue s) (_queueHead s) (_queueTail s) (_initTime s)
    (_cmdTime s) (_clearTime s) v (_i2cAddr s) (_state s)
    (_lastActionTime s) (_errorCount s) (_needsFullRefresh s).
Definition set_state v (s : SerLCD0) :=
  mkSerLCD0 (_cmdQueue s) (_queueHead s) (_queueTail s) (_initTime s)
    (_cmdTime s) (_clearTime s) (_errorResetTime s) (_i2cAddr s) v
    (_lastActionTime s) (_errorCount s) (_needsFullRefresh s).
Definition set_lastActionTime v (s : SerLCD0) :=
  mkSerLCD0 (_cmdQueue s) (_queueHead s) (_queueTail s) (_initTime s)
    (_cmdTime s) (_clearTime s) (_errorResetTime s) (_i2cAddr s) (_state s)
    v (_errorCount s) (_needsFullRefresh s).
Definition set_errorCount v (s : SerLCD0) :=
  mkSerLCD0 (_cmdQueue s) (_queueHead s) (_queueTail s) (_initTime s)
    (_cmdTime s) (_clearTime s) (_errorResetTime s) (_i2cAddr s) (_state s)
    (_lastActionTime s) v (_needsFullRefresh s).
Definition set_needsFullRefresh v (s : SerLCD0) :=
  mkSerLCD0 (_cmdQueue s) (_queueHead s) (_queueTail s) (_initTime s)
    (_cmdTime s) (_clearTime s) (_errorResetTime s) (_i2cAddr s) (_state s)
    (_lastActionTime s) (_errorCount s) v.

(** ** The environment: bus, clock, serial port *)

(** Calls made on the [TwoWire] port, in order. *)
Inductive WireEvent :=
| beginTransmission (addr : Z)
| write_byte (b : Z)
| endTransmission (status : Z).

(** Calls made on [Serial] (debug output only). *)
Inductive SerialOut :=
| print_str (s : string)
| print_num (n : Z)
| println_str (s : string)
| println_num (n : Z).

(** The whole program state: the driver object, the two static members of
    the class, and the outside world.  [clock k] is what the [k]-th call of
    [millis()] returns and [bus_status k] what the [k]-th call of
    [endTransmission()] returns; [uninit] is the indeterminate content of a
    freshly declared local [LCDCommand cmd;]. *)
Record World := mkWorld {
  self : SerLCD0;
  _SerLCD0_Debug : bool;
  _SerLCD0_ErrorThreshold : Z;
  clock : nat -> Z;
  clock_reads : nat;
  bus_status : nat -> Z;
  bus_ends : nat;
  wire : list WireEvent;
  serial : list SerialOut;
  uninit : LCDCommand
}.

Definition set_self v (w : World) :=
  mkWorld v (_SerLCD0_Debug w) (_SerLCD0_ErrorThreshold w) (clock w)
    (clock_reads w) (bus_status w) (bus_ends w) (wire w) (serial w) (uninit w).
Definition set_Debug v (w : World) :=
  mkWorld (self w) v (_SerLCD0_ErrorThreshold w) (clock w)
    (clock_reads w) (bus_status w) (bus_ends w) (wire w) (serial w) (uninit w).
Definition set_ErrorThreshold v (w : World) :=
  mkWorld (self w) (_SerLCD0_Debug w) v (clock w)
    (clock_reads w) (bus_status w) (bus_ends w) (wire w) (serial w) (uninit w).
Definition set_clock_reads v (w : World) :=
  mkWorld (self w) (_SerLCD0_Debug w) (_SerLCD0_ErrorThreshold w) (clock w)
    v (bus_status w) (bus_ends w) (wire w) (serial w) (uninit w).
Definition set_bus_ends v (w : World) :=
  mkWorld (self w) (_SerLCD0_Debug w) (_SerLCD0_ErrorThreshold w) (clock w)
    (clock_reads w) (bus_status w) v (wire w) (serial w) (uninit w).
Definition set_wire v (w : World) :=
  mkWorld (self w) (_SerLCD0_Debug w) (_SerLCD0_ErrorThreshold w) (clock w)
    (clock_reads w) (bus_status w) (bus_ends w) v (serial w) (uninit w).
Definition set_serial v (w : World) :=
  mkWorld (self w) (_SerLCD0_Debug w) (_SerLCD0_ErrorThreshold w) (clock w)
    (clock_reads w) (bus_status w) (bus_ends w) (wire w) v (uninit w).

(** ** A state monad over [World] *)

Definition M (A : Type) : Type := World -> A * World.

Definition ret {A} (a : A) : M A := fun w => (a, w).
Definition bind {A B} (m : M A) (k : A -> M B) : M B :=
  fun w => let (a, w') := m w in k a w'.

Declare Scope lcd_scope.
Delimit Scope lcd_scope with lcd.
Notation "x <- m ;; k" := (bind m (fun x => k))
  (at level 100, m at next level, right associativity) : lcd_scope.
Notation "m ;; k" := (bind m (fun _ => k))
  (at level 100, right associativity) : lcd_scope.
Local Open Scope lcd_scope.

(** Reading and writing members of [*this]. *)
Definition this {A} (f : SerLCD0 -> A) : M A := fun w => (f (self w), w).
Definition assign (f : SerLCD0 -> SerLCD0) : M unit :=
  fun w => (tt, set_self (f (self w)) w).
Definition static {A} (f : World -> A) : M A := fun w => (f w, w).
Definition when (b : bool) (m : M unit) : M unit := if b then m else ret tt.

(** [millis()] *)
Definition millis : M Z :=
  fun w => (ulong (clock w (clock_reads w)), set_clock_reads (S (clock_reads w)) w).

(** [_wirePort->beginTransmission], [->write], [->endTransmission] *)
Definition Wire_beginTransmission (addr : Z) : M unit :=
  fun w => (tt, set_wire (wire w ++ [beginTransmission addr]) w).
Definition Wire_write (b : Z) : M unit :=
  fun w => (tt, set_wire (wire w ++ [write_byte b]) w).
Definition Wire_endTransmission : M Z :=
  fun w => let rc := bus_status w (bus_ends w) in
           (rc, set_bus_ends (S (bus_ends w))
                  (set_wire (wire w ++ [endTransmission rc]) w)).

Definition Serial_out (o : SerialOut) : M unit :=
  fun w => (tt, set_serial (serial w ++ [o]) w).

(** ** SerLCD0.cpp *)

(** Slot [i] of [_cmdQueue].  The source only indexes with [_queueHead] and
    [_queueTail], which stay below [QUEUE_SIZE]; outside the array (undefined
    in C++) a read gives [NONE] and a write changes nothing. *)
Definition slot (q : list LCDCommand) (i : Z) : LCDCommand :=
  nth (Z.to_nat i) q (mkLCDCommand NONE 0 0 0 0).
Definition store (q : list LCDCommand) (i : Z) (c : LCDCommand) : list LCDCommand :=
  <[Z.to_nat i := c]> q.

Definition getStateString : M string :=
  s <- this _state ;;
  ret (match s with
       | READY => "READY"
       | PROCESSING => "PROCESSING"
       | AWAITING_RESPONSE => "AWAITING_RESPONSE"
       | ERROR => "ERROR"
       end%string).

Definition resetQueue : M unit :=
  assign (set_queueHead 0) ;;
  assign (set_queueTail 0).

Definition handleError : M unit :=
  n <- this _errorCount ;;
  assign (set_errorCount (u8 (n + 1))) ;;
  dbg <- static _SerLCD0_Debug ;;
  cnt <- this _errorCount ;;
  thr <- static _SerLCD0_ErrorThreshold ;;
  when (dbg && (cnt >=? thr))
    (Serial_out (print_str "Error #") ;;
     Serial_out (print_num cnt) ;;
     Serial_out (print_str " in state: ") ;;
     str <- getStateString ;;
     Serial_out (println_str str)) ;;
  when (cnt >? thr)
    (assign (set_state ERROR) ;;
     assign (set_needsFullRefresh true) ;;
     resetQueue ;;
     when dbg (Serial_out (println_str "ERROR state - will reset"))) ;;
  now <- millis ;;
  assign (set_lastActionTime now).

Definition queueCommand (cmd : LCDCommand) : M bool :=
  tail <- this _queueTail ;;
  let nextTail := u8 ((tail + 1) mod QUEUE_SIZE) in
  head <- this _queueHead ;;
  if nextTail =? head then
    handleError ;;
    ret false
  else
    assign (fun s => set_cmdQueue (store (_cmdQueue s) (_queueTail s) cmd) s) ;;
    assign (set_queueTail nextTail) ;;
    ret true.

Definition sendCommand (cmd : LCDCommand) : M bool :=
  let finish : M bool :=
    rc <- Wire_endTransmission ;;
    let success := rc =? 0 in
    dbg <- static _SerLCD0_Debug ;;
    when (dbg && negb success)
      (Serial_out (println_str "I2C transmission failed")) ;;
    ret success in
  addr <- this _i2cAddr ;;
  Wire_beginTransmission addr ;;
  match type cmd with
  | WRITE_CHAR =>
      when ((data_0 cmd =? SPECIAL_COMMAND) || (data_0 cmd =? SETTING_COMMAND))
        (Wire_write (data_0 cmd)) ;;
      Wire_write (data_0 cmd) ;;
      finish
  | SPECIAL_CMD =>
      Wire_write SPECIAL_COMMAND ;;
      Wire_write (data_0 cmd) ;;
      finish
  | SETTING_CMD =>
      Wire_write SETTING_COMMAND ;;
      Wire_write (data_0 cmd) ;;
      finish
  | RGB_CMD =>
      dbg <- static _SerLCD0_Debug ;;
      when dbg
        (Serial_out (println_str "Setting backlight RGB:") ;;
         Serial_out (print_num (data_0 cmd)) ;; Serial_out (print_str ",") ;;
         Serial_out (print_num (data_1 cmd)) ;; Serial_out (print_str ",") ;;
         Serial_out (println_num (data_2 cmd))) ;;
      Wire_write SETTING_COMMAND ;;
      Wire_write RGB_COMMAND ;;
      Wire_write (data_0 cmd) ;;
      Wire_write (data_1 cmd) ;;
      Wire_write (data_2 cmd) ;;
      finish
  | NONE => ret false
  end.

Definition processNextCommand : M bool :=
  st <- this _state ;;
  head <- this _queueHead ;;
  tail <- this _queueTail ;;
  if negb (State_eqb st READY) || (head =? tail) then ret false
  else
    cmd <- this (fun s => slot (_cmdQueue s) (_queueHead s)) ;;
    ok <- sendCommand cmd ;;
    if ok then
      assign (fun s => set_queueHead (u8 ((_queueHead s + 1) mod QUEUE_SIZE)) s) ;;
      assign (set_state PROCESSING) ;;
      now <- millis ;;
      assign (set_lastActionTime now) ;;
      ret true
    else
      handleError ;;
      ret false.

(** The local [LCDCommand cmd;] of the convenience calls starts from the
    indeterminate value [uninit]; the assignments follow. *)
Definition local_cmd : M LCDCommand := static uninit.

Definition write (b : Z) : M Z :=
  cmd <- local_cmd ;;
  let cmd := set_type WRITE_CHAR cmd in
  let cmd := set_data_0 b cmd in
  let cmd := set_dataLen 1 cmd in
  ok <- queueCommand cmd ;;
  ret (if ok then 1 else 0).

Definition clear : M unit :=
  cmd <- local_cmd ;;
  let cmd := set_type SPECIAL_CMD cmd in
  let cmd := set_data_0 CLEAR_COMMAND cmd in
  let cmd := set_dataLen 1 cmd in
  queueCommand cmd ;;
  ret tt.

Definition home : M unit :=
  cmd <- local_cmd ;;
  let cmd := set_type SPECIAL_CMD cmd in
  let cmd := set_data_0 HOME_COMMAND cmd in
  let cmd := set_dataLen 1 cmd in
  queueCommand cmd ;;
  ret tt.

Definition row_offsets : list Z := [0x00; 0x40; 0x14; 0x54].

Definition setCursor (col row : Z) : M unit :=
  let row := Z.min row 3 in
  cmd <- local_cmd ;;
  let cmd := set_type SPECIAL_CMD cmd in
  let cmd := set_data_0 (u8 (Z.lor 0x80 (col + nth (Z.to_nat row) row_offsets 0))) cmd in
  let cmd := set_dataLen 1 cmd in
  queueCommand cmd ;;
  ret tt.

Definition setBacklight (r g b : Z) : M unit :=
  dbg <- static _SerLCD0_Debug ;;
  when dbg
    (Serial_out (print_str "Queueing backlight RGB(") ;;
     Serial_out (print_num r) ;; Serial_out (print_str ",") ;;
     Serial_out (print_num g) ;; Serial_out (print_str ",") ;;
     Serial_out (print_num b) ;; Serial_out (println_str ")")) ;;
  cmd <- local_cmd ;;
  let cmd := set_type RGB_CMD cmd in
  let cmd := set_data_0 r cmd in
  let cmd := set_data_1 g cmd in
  let cmd := set_data_2 b cmd in
  let cmd := set_dataLen 3 cmd in
  success <- queueCommand cmd ;;
  dbg <- static _SerLCD0_Debug ;;
  when dbg
    (Serial_out (print_str "Backlight command ") ;;
     Serial_out (println_str (if success then "queued" else "failed to queue"))).

Definition reinitialize : M unit :=
  resetQueue ;;
  assign (set_state PROCESSING) ;;
  now <- millis ;;
  assign (set_lastActionTime now) ;;
  assign (set_errorCount 0) ;;
  assign (set_needsFullRefresh true) ;;
  clear ;;
  setBacklight 255 255 255.

Definition begin : M unit := reinitialize.

Definition isReady : M bool := st <- this _state ;; ret (State_eqb st READY).

Definition update : M bool :=
  currentTime <- millis ;;
  st <- this _state ;;
  match st with
  | PROCESSING =>
      last <- this _lastActionTime ;;
      cmdTime <- this _cmdTime ;;
      when (ulong (currentTime - last) >=? cmdTime)
        (assign (set_state READY)) ;;
      isReady
  | ERROR =>
      last <- this _lastActionTime ;;
      errorResetTime <- this _errorResetTime ;;
      when (ulong (currentTime - last) >=? errorResetTime)
        (assign (set_state READY) ;;
         assign (set_errorCount 0) ;;
         reinitialize) ;;
      ret false
  | READY =>
      head <- this _queueHead ;;
      tail <- this _queueTail ;;
      if negb (head =? tail) then processNextCommand
      else isReady
  | AWAITING_RESPONSE => isReady
  end.

Definition getQueueCount (s : SerLCD0) : Z :=
  if _queueTail s >=? _queueHead s
  then u8 (_queueTail s - _queueHead s)
  else u8 (QUEUE_SIZE - (_queueHead s - _queueTail s)).

(** The inline members of the header. *)
Definition setInitTime (ms : Z) : M unit := assign (set_initTime (ulong ms)).
Definition setCmdTime (ms : Z) : M unit := assign (set_cmdTime (ulong ms)).
Definition setClearTime (ms : Z) : M unit := assign (set_clearTime (ulong ms)).
Definition setErrorResetTime (ms : Z) : M unit :=
  assign (set_errorResetTime (ulong ms)).
Definition setSerLCD0_Debug (enable : bool) : M unit :=
  fun w => (tt, set_Debug enable w).
Definition setSerLCD0_ErrorThreshold (threshold : Z) : M unit :=
  fun w => (tt, set_ErrorThreshold (u8 threshold) w).
Definition getErrorCount : M Z := this _errorCount.
Definition isBusy : M bool := st <- this _state ;; ret (negb (State_eqb st READY)).
Definition hasError : M bool := st <- this _state ;; ret (State_eqb st ERROR).
Definition needsRefresh : M bool := this _needsFullRefresh.
Definition clearRefreshFlag : M unit := assign (set_needsFullRefresh false).

(** The constructor: the queue storage is whatever memory held, the timing
    members take their in-class initialisers, [_lastActionTime] is not
    initialised. *)
Definition SerLCD0_new (storage : list LCDCommand) (last : Z) (i2c_addr : Z) : SerLCD0 :=
  {| _cmdQueue := storage; _queueHead := 0; _queueTail := 0;
     _initTime := 1000; _cmdTime := 5; _clearTime := 50; _errorResetTime := 100;
     _i2cAddr := i2c_addr; _state := READY; _lastActionTime := last;
     _errorCount := 0; _needsFullRefresh := true |}.

(** ** Observations on the bus log *)

(** The bytes passed to [write], in order. *)
Fixpoint wire_bytes (l : list WireEvent) : list Z :=
  match l with
  | [] => []
  | write_byte b :: l' => b :: wire_bytes l'
  | _ :: l' => wire_bytes l'
  end.

(** The bytes [sendCommand] writes for a command, read off its [switch]. *)
Definition encode (cmd : LCDCommand) : list Z :=
  match type cmd with
  | WRITE_CHAR =>
      if (data_0 cmd =? SPECIAL_COMMAND) || (data_0 cmd =? SETTING_COMMAND)
      then [data_0 cmd; data_0 cmd] else [data_0 cmd]
  | SPECIAL_CMD => [SPECIAL_COMMAND; data_0 cmd]
  | SETTING_CMD => [SETTING_COMMAND; data_0 cmd]
  | RGB_CMD => [SETTING_COMMAND; RGB_COMMAND; data_0 cmd; data_1 cmd; data_2 cmd]
  | NONE => []
  end.

(** Whether [sendCommand] reports success in world [w]: the command has a
    known type and the pending [endTransmission] returns 0. *)
Definition send_ok (cmd : LCDCommand) (w : World) : bool :=
  match type cmd with
  | NONE => false
  | _ => bus_status w (bus_ends w) =? 0
  end.

(** ** The queue as a list *)

(** The array and both indices are in range ([_cmdQueue] has [QUEUE_SIZE]
    slots). *)
Definition queue_ok (s : SerLCD0) : Prop :=
  0 <= _queueHead s < QUEUE_SIZE /\ 0 <= _queueTail s < QUEUE_SIZE /\
  length (_cmdQueue s) = Z.to_nat QUEUE_SIZE.

(** The commands waiting in the ring, oldest first: the [getQueueCount]
    slots from [_queueHead] on, wrapping at [QUEUE_SIZE]. *)
Definition pending (s : SerLCD0) : list LCDCommand :=
  map (fun k => slot (_cmdQueue s) ((_queueHead s + Z.of_nat k) mod QUEUE_SIZE))
      (seq 0 (Z.to_nat (getQueueCount s))).

(** The driver with only its dispatch state replaced. *)
Definition with_state (st : State) (w : World) : World :=
  set_self (set_state st (self w)) w.

(** ** Runs of the driver *)

(** What a caller does between two observations: enqueue a command or call
    the tick. *)
Inductive Call :=
| call_queueCommand (cmd : LCDCommand)
| call_update.

Definition do_call (c : Call) : M bool :=
  match c with
  | call_queueCommand cmd => queueCommand cmd
  | call_update => update
  end.

Fixpoint run (cs : list Call) (w : World) : World :=
  match cs with
  | [] => w
  | c :: cs' => run cs' (snd (do_call c w))
  end.

(** The commands of the [queueCommand] calls of a run that returned [true]. *)
Fixpoint enqueued (cs : list Call) (w : World) : list LCDCommand :=
  match cs with
  | [] => []
  | c :: cs' =>
      let r := do_call c w in
      match c with
      | call_queueCommand cmd =>
          if fst r then cmd :: enqueued cs' (snd r) else enqueued cs' (snd r)
      | call_update => enqueued cs' (snd r)
      end
  end.

(** The dispatch state is not [ERROR] before the run, between any two of its
    calls, or after it. *)
Fixpoint no_escalation (cs : list Call) (w : World) : bool :=
  negb (State_eqb (_state (self w)) ERROR) &&
  match cs with
  | [] => true
  | c :: cs' => no_escalation cs' (snd (do_call c w))
  end.

(** No [update] of the run starts in [ERROR] (so none runs the recovery
    branch). *)
Fixpoint no_recovery (cs : list Call) (w : World) : bool :=
  match cs with
  | [] => true
  | c :: cs' =>
      match c with
      | call_update => negb (State_eqb (_state (self w)) ERROR)
      | call_queueCommand _ => true
      end && no_recovery cs' (snd (do_call c w))
  end.

(** A call fails when it ends in [handleError]: an enqueue on a full queue,
    or a tick that tried the head command and got [false] from
    [sendCommand]. *)
Definition call_fails (c : Call) (w : World) : bool :=
  match c with
  | call_queueCommand cmd => negb (fst (queueCommand cmd w))
  | call_update =>
      State_eqb (_state (self w)) READY &&
      negb (_queueHead (self w) =? _queueTail (self w)) &&
      negb (send_ok (slot (_cmdQueue (self w)) (_queueHead (self w))) w)
  end.

Fixpoint failures (cs : list Call) (w : World) : Z :=
  match cs with
  | [] => 0
  | c :: cs' =>
      (if call_fails c w then 1 else 0) + failures cs' (snd (do_call c w))
  end.

(** [fifo_dispatch q a r]: handing the commands [a] to the bus, one per
    dispatching tick, starting with queue [q] and always taking the oldest
    command, leaves [r].  A command stays at the head when its transaction
    failed ([fifo_retry]) and leaves the queue when it succeeded
    ([fifo_sent]). *)
Inductive fifo_dispatch :
  list LCDCommand -> list LCDCommand -> list LCDCommand -> Prop :=
| fifo_done q : fifo_dispatch q [] q
| fifo_retry c q a r :
    fifo_dispatch (c :: q) a r -> fifo_dispatch (c :: q) (c :: a) r
| fifo_sent c q a r :
    fifo_dispatch q a r -> fifo_dispatch (c :: q) (c :: a) r.

(** [n] failures in a row, each reaching [handleError]. *)
Fixpoint handleError_times (n : nat) : M unit :=
  match n with
  | O => ret tt
  | S n' => handleError ;; handleError_times n'
  end.

(** Enqueue a list of commands, one call each, collecting the results. *)
Fixpoint queueCommand_all (cmds : list LCDCommand) : M (list bool) :=
  match cmds with
  | [] => ret []
  | c :: cs => r <- queueCommand c ;; rs <- queueCommand_all cs ;; ret (r :: rs)
  end.

(** The commands [clear] and [setBacklight] build; [clear] leaves
    [data[1]] and [data[2]] as they were in the uninitialised local [u]. *)
Definition clear_cmd (u : LCDCommand) : LCDCommand :=
  mkLCDCommand SPECIAL_CMD CLEAR_COMMAND (data_1 u) (data_2 u) 1.
Definition backlight_cmd (r g b : Z) : LCDCommand :=
  mkLCDCommand RGB_CMD r g b 3.

(** What an enqueue can change of the queue: the array and the indices. *)
Definition queue_view (s : SerLCD0) : list LCDCommand * Z * Z :=
  (_cmdQueue s, _queueHead s, _queueTail s).

(** ** Example inputs *)

Definition blank_cmd : LCDCommand := mkLCDCommand NONE 0 0 0 0.

(** A driver just constructed at address 0x72, debug output off, with the
    given error threshold, clock and bus. *)
Definition fresh_world (thr : Z) (ck bs : nat -> Z) : World :=
  mkWorld (SerLCD0_new (repeat blank_cmd 32) 0 0x72) false thr ck 0%nat bs 0%nat
    [] [] blank_cmd.

Definition char_cmd (b : Z) : LCDCommand := mkLCDCommand WRITE_CHAR b 0 0 1.

(** The fresh driver after [write('A')], on a bus with the given status
    codes; the clock stands still at 0. *)
Definition one_char_world (thr : Z) (bs : nat -> Z) : World :=
  snd (write 65 (fresh_world thr (fun _ => 0) bs)).

(** A driver in [ERROR] since time 0, looked at when the clock reads 100
    (the default recovery time). *)
Definition error_world : World :=
  with_state ERROR (fresh_world 1 (fun _ => 100) (fun _ => 0)).

(** A clock for the two-command scenario: the first tick runs at time 0, the
    second at 2 ms, every later one at 10 ms. *)
Definition scenario_clock (k : nat) : Z :=
  match k with
  | 0%nat | 1%nat => 0
  | 2%nat => 2
  | _ => 10
  end.

(** A fresh driver after [clear(); setBacklight(10, 20, 30);] on a bus that
    accepts every transaction. *)
Definition scenario_world : World :=
  snd (setBacklight 10 20 30
         (snd (clear (fresh_world 1 scenario_clock (fun _ => 0))))).

(** A clock that advances 10 ms between two readings, and a bus that
    answers 4 (NACK) to the transactions whose index is listed and 0 to the
    others. *)
Definition ticking_clock (k : nat) : Z := 10 * Z.of_nat k.
Definition flaky_bus (nack : list nat) (k : nat) : Z :=
  if existsb (Nat.eqb k) nack then 4 else 0.

(** Enqueue 'A' and 'B', then tick four times; the first transaction is
    rejected. *)
Definition fifo_calls : list Call :=
  [call_queueCommand (char_cmd 65); call_queueCommand (char_cmd 66);
   call_update; call_update; call_update; call_update].
Definition fifo_world : World := fresh_world 1 ticking_clock (flaky_bus [0%nat]).

(** A rejected transaction, then two commands sent successfully, then another
    rejected transaction (the transactions 0 and 3 of the run). *)
Definition accumulate_calls : list Call :=
  [call_queueCommand (char_cmd 65); call_update; call_update; call_update;
   call_queueCommand (char_cmd 66); call_update; call_update;
   call_queueCommand (char_cmd 67); call_update].
Definition accumulate_world : World :=
  fresh_world 1 ticking_clock (flaky_bus [0%nat; 3%nat]).

(** ** The public interface *)

Definition getQueueSize : M Z := ret QUEUE_SIZE.

(** The public members of the class that change the driver or the static
    configuration, as calls. *)
Inductive Api :=
| api_begin
| api_reinitialize
| api_update
| api_clear
| api_home
| api_setCursor (col row : Z)
| api_setBacklight (r g b : Z)
| api_write (b : Z)
| api_setInitTime (ms : Z)
| api_setCmdTime (ms : Z)
| api_setClearTime (ms : Z)
| api_setErrorResetTime (ms : Z)
| api_setSerLCD0_Debug (enable : bool)
| api_setSerLCD0_ErrorThreshold (threshold : Z)
| api_clearRefreshFlag.

Definition do_api (a : Api) : M unit :=
  match a with
  | api_begin => begin
  | api_reinitialize => reinitialize
  | api_update => update ;; ret tt
  | api_clear => clear
  | api_home => home
  | api_setCursor col row => setCursor col row
  | api_setBacklight r g b => setBacklight r g b
  | api_write b => write b ;; ret tt
  | api_setInitTime ms => setInitTime ms
  | api_setCmdTime ms => setCmdTime ms
  | api_setClearTime ms => setClearTime ms
  | api_setErrorResetTime ms => setErrorResetTime ms
  | api_setSerLCD0_Debug enable => setSerLCD0_Debug enable
  | api_setSerLCD0_ErrorThreshold threshold => setSerLCD0_ErrorThreshold threshold
  | api_clearRefreshFlag => clearRefreshFlag
  end.

Fixpoint run_api (l : list Api) (w : World) : World :=
  match l with
  | [] => w
  | a :: l' => run_api l' (snd (do_api a w))
  end.

(** The calls [sendCommand] makes on the bus for one command: begin, the
    bytes of the command, and end; for a command of type [NONE] the function
    returns before [endTransmission]. *)
Definition transaction (addr : Z) (cmd : LCDCommand) (status : Z) : list WireEvent :=
  beginTransmission addr :: map write_byte (encode cmd) ++
  match type cmd with
  | NONE => []
  | _ => [endTransmission status]
  end.

(** The number of transactions begun in a bus log. *)
Fixpoint begun (l : list WireEvent) : nat :=
  match l with
  | [] => 0
  | beginTransmission _ :: l' => S (begun l')
  | _ :: l' => begun l'
  end.

(** The number of ticks in a run. *)
Fixpoint ticks (cs : list Call) : nat :=
  match cs with
  | [] => 0
  | call_update :: cs' => S (ticks cs')
  | call_queueCommand _ :: cs' => ticks cs'
  end.

(** What the calls of a run return, in order. *)
Fixpoint results (cs : list Call) (w : World) : list bool :=
  match cs with
  | [] => []
  | c :: cs' => fst (do_call c w) :: results cs' (snd (do_call c w))
  end.

(** Two worlds that agree on everything but the debug flag and what has
    been printed on [Serial]. *)
Definition same_but_debug (w1 w2 : World) : Prop :=
  self w1 = self w2 /\
  _SerLCD0_ErrorThreshold w1 = _SerLCD0_ErrorThreshold w2 /\
  clock w1 = clock w2 /\ clock_reads w1 = clock_reads w2 /\
  bus_status w1 = bus_status w2 /\ bus_ends w1 = bus_ends w2 /\
  wire w1 = wire w2 /\ uninit w1 = uninit w2.

(** The command types the public calls build: [write] a character, [clear],
    [home] and [setCursor] a special command, [setBacklight] a colour. *)
Definition built_by_api (c : LCDCommand) : Prop :=
  type c = WRITE_CHAR \/ type c = SPECIAL_CMD \/ type c = RGB_CMD.

(** The timing members and the bus address of the driver. *)
Definition config_view (s : SerLCD0) : Z * Z * Z * Z * Z :=
  (_initTime s, _cmdTime s, _clearTime s, _errorResetTime s, _i2cAddr s).

(** The command [setCursor] builds, given the uninitialised local [u]. *)
Definition cursor_cmd (u : LCDCommand) (col row : Z) : LCDCommand :=
  mkLCDCommand SPECIAL_CMD
    (u8 (Z.lor 0x80 (col + nth (Z.to_nat (Z.min row 3)) row_offsets 0)))
    (data_1 u) (data_2 u) 1.

(** A driver in [PROCESSING] whose last action was 3 ms before the
    millisecond counter wraps, looked at 4 ms after the wrap. *)
Definition wrap_world : World :=
  mkWorld (set_lastActionTime (2 ^ 32 - 3)
             (set_state PROCESSING (SerLCD0_new (repeat blank_cmd 32) 0 0x72)))
    false 1 (fun _ => 2 ^ 32 + 4) 0%nat (fun _ => 0) 0%nat [] [] blank_cmd.

(** * Properties *)

Lemma wire_bytes_app l1 l2 : wire_bytes (l1 ++ l2) = wire_bytes l1 ++ wire_bytes l2.
Proof.
  induction l1 as [|e l1 IH]; simpl; [reflexivity|].
  destruct e; simpl; rewrite IH; reflexivity.
Qed.

#[local] Arguments u8 : simpl never.
#[local] Arguments ulong : simpl never.
#[local] Arguments Z.modulo : simpl never.
#[local] Arguments Z.pow : simpl never.
#[local] Arguments Z.gtb : simpl never.
#[local] Arguments Z.geb : simpl never.
#[local] Arguments Z.eqb : simpl never.
#[local] Arguments Z.add : simpl never.
#[local] Arguments Z.sub : simpl never.

(** Reduce projections of explicit records and the field updates, nothing
    else. *)
Ltac fields :=
  cbn [set_type set_data_0 set_data_1 set_data_2 set_dataLen
       set_cmdQueue set_queueHead set_queueTail set_initTime set_cmdTime
       set_clearTime set_errorResetTime set_state set_lastActionTime
       set_errorCount set_needsFullRefresh
       set_self set_Debug set_ErrorThreshold set_clock_reads set_bus_ends
       set_wire set_serial with_state
       self _SerLCD0_Debug _SerLCD0_ErrorThreshold clock clock_reads bus_status
       bus_ends wire serial uninit
       _cmdQueue _queueHead _queueTail _initTime _cmdTime _clearTime
       _errorResetTime _i2cAddr _state _lastActionTime _errorCount
       _needsFullRefresh
       type data_0 data_1 data_2 dataLen
       fst snd andb orb negb State_eqb] in *.

(** The same on fully explicit records. *)
Ltac fields_cbv :=
  cbv [set_type set_data_0 set_data_1 set_data_2 set_dataLen
       set_cmdQueue set_queueHead set_queueTail set_initTime set_cmdTime
       set_clearTime set_errorResetTime set_state set_lastActionTime
       set_errorCount set_needsFullRefresh
       set_self set_Debug set_ErrorThreshold set_clock_reads set_bus_ends
       set_wire set_serial with_state
       self _SerLCD0_Debug _SerLCD0_ErrorThreshold clock clock_reads bus_status
       bus_ends wire serial uninit
       _cmdQueue _queueHead _queueTail _initTime _cmdTime _clearTime
       _errorResetTime _i2cAddr _state _lastActionTime _errorCount
       _needsFullRefresh
       type data_0 data_1 data_2 dataLen
       fst snd andb orb negb State_eqb].

Ltac unfold_monad :=
  cbv [bind ret this assign static when millis Wire_beginTransmission
       Wire_write Wire_endTransmission Serial_out local_cmd getStateString
       resetQueue isReady].

(** *** Frame and effect of [sendCommand] *)

Lemma sendCommand_result cmd w : fst (sendCommand cmd w) = send_ok cmd w.
Proof.
  unfold sendCommand, send_ok. unfold_monad. destruct w as [s dbg thr ck cr bs be wr sr un].
  destruct (type cmd); simpl; try reflexivity;
    repeat match goal with |- context [if ?b then _ else _] => destruct b; simpl end;
    reflexivity.
Qed.

Lemma sendCommand_self cmd w : self (snd (sendCommand cmd w)) = self w.
Proof.
  unfold sendCommand. unfold_monad. destruct w as [s dbg thr ck cr bs be wr sr un].
  destruct (type cmd); simpl; try reflexivity;
    repeat match goal with |- context [if ?b then _ else _] => destruct b; simpl end;
    reflexivity.
Qed.

Lemma sendCommand_env cmd w :
  let w' := snd (sendCommand cmd w) in
  _SerLCD0_Debug w' = _SerLCD0_Debug w /\
  _SerLCD0_ErrorThreshold w' = _SerLCD0_ErrorThreshold w /\
  clock w' = clock w /\ clock_reads w' = clock_reads w /\
  bus_status w' = bus_status w /\ uninit w' = uninit w /\
  bus_ends w' = match type cmd with NONE => bus_ends w | _ => S (bus_ends w) end.
Proof.
  unfold sendCommand. unfold_monad. destruct w as [s dbg thr ck cr bs be wr sr un].
  destruct (type cmd); simpl;
    repeat match goal with |- context [if ?b then _ else _] => destruct b; simpl end;
    repeat split; reflexivity.
Qed.

Lemma sendCommand_wire cmd w :
  wire_bytes (wire (snd (sendCommand cmd w))) = wire_bytes (wire w) ++ encode cmd.
Proof.
  unfold sendCommand, encode. unfold_monad. destruct w as [s dbg thr ck cr bs be wr sr un].
  destruct (type cmd); simpl;
    repeat match goal with |- context [if ?b then _ else _] => destruct b; simpl end;
    repeat rewrite wire_bytes_app; simpl; repeat rewrite <- app_assoc; simpl;
    rewrite ?app_nil_r; reflexivity.
Qed.

Lemma sendCommand_spec cmd w :
  exists wr sr,
    sendCommand cmd w =
      (send_ok cmd w,
       mkWorld (self w) (_SerLCD0_Debug w) (_SerLCD0_ErrorThreshold w) (clock w)
         (clock_reads w) (bus_status w)
         (match type cmd with NONE => bus_ends w | _ => S (bus_ends w) end)
         wr sr (uninit w)) /\
    wire_bytes wr = wire_bytes (wire w) ++ encode cmd.
Proof.
  pose proof (sendCommand_result cmd w) as Hr.
  pose proof (sendCommand_self cmd w) as Hs.
  pose proof (sendCommand_env cmd w) as He.
  pose proof (sendCommand_wire cmd w) as Hw.
  destruct (sendCommand cmd w) as [ok w'].
  destruct w' as [s' dbg' thr' ck' cr' bs' be' wr' sr' un'].
  simpl in *. destruct He as (? & ? & ? & ? & ? & ? & ?). subst.
  exists wr', sr'. split; [reflexivity | assumption].
Qed.

(** *** Effect of [handleError] *)

(** The driver after [handleError]: the counter is incremented as a
    [uint8_t]; above the threshold the state is [ERROR] and the queue is
    reset; the time stamp is the next clock reading. *)
Lemma handleError_spec w :
  exists sr,
    handleError w =
      (tt,
       mkWorld
         (let s := self w in
          let c := u8 (_errorCount s + 1) in
          let now := ulong (clock w (clock_reads w)) in
          if c >? _SerLCD0_ErrorThreshold w
          then set_lastActionTime now
                 (set_queueTail 0 (set_queueHead 0
                    (set_needsFullRefresh true (set_state ERROR (set_errorCount c s)))))
          else set_lastActionTime now (set_errorCount c s))
         (_SerLCD0_Debug w) (_SerLCD0_ErrorThreshold w) (clock w)
         (S (clock_reads w)) (bus_status w) (bus_ends w) (wire w) sr (uninit w)).
Proof.
  destruct w as [s dbg thr ck cr bs be wr sr un]. destruct s.
  unfold handleError. unfold_monad. fields_cbv.
  destruct dbg; fields_cbv;
    destruct (u8 (_errorCount0 + 1) >=? thr); fields_cbv;
    destruct (u8 (_errorCount0 + 1) >? thr); fields_cbv;
    eexists; reflexivity.
Qed.

(** *** Effect of [queueCommand] *)

Lemma queueCommand_spec cmd w :
  queueCommand cmd w =
    if u8 ((_queueTail (self w) + 1) mod QUEUE_SIZE) =? _queueHead (self w)
    then (false, snd (handleError w))
    else (true,
          set_self
            (set_queueTail (u8 ((_queueTail (self w) + 1) mod QUEUE_SIZE))
               (set_cmdQueue (store (_cmdQueue (self w)) (_queueTail (self w)) cmd)
                  (self w))) w).
Proof.
  unfold queueCommand. cbv [bind ret this assign].
  destruct (u8 ((_queueTail (self w) + 1) mod QUEUE_SIZE) =? _queueHead (self w)).
  - destruct (handleError w) as [[] w']. reflexivity.
  - destruct w as [s dbg thr ck cr bs be wr sr un]. reflexivity.
Qed.

(** *** Effect of [processNextCommand] *)

Lemma processNextCommand_idle w :
  _state (self w) <> READY \/ _queueHead (self w) = _queueTail (self w) ->
  processNextCommand w = (false, w).
Proof.
  intros H. unfold processNextCommand. cbv [bind ret this].
  destruct H as [H|H].
  - destruct (_state (self w)); try congruence; reflexivity.
  - rewrite H, Z.eqb_refl, orb_true_r. reflexivity.
Qed.

Lemma processNextCommand_sent w :
  _state (self w) = READY -> _queueHead (self w) <> _queueTail (self w) ->
  send_ok (slot (_cmdQueue (self w)) (_queueHead (self w))) w = true ->
  exists wr sr,
    processNextCommand w =
      (true,
       mkWorld
         (set_lastActionTime (ulong (clock w (clock_reads w)))
            (set_state PROCESSING
               (set_queueHead (u8 ((_queueHead (self w) + 1) mod QUEUE_SIZE)) (self w))))
         (_SerLCD0_Debug w) (_SerLCD0_ErrorThreshold w) (clock w)
         (S (clock_reads w)) (bus_status w) (S (bus_ends w)) wr sr (uninit w)) /\
    wire_bytes wr =
      wire_bytes (wire w) ++ encode (slot (_cmdQueue (self w)) (_queueHead (self w))).
Proof.
  intros Hst Hne Hok. unfold processNextCommand. cbv [bind ret this assign millis].
  rewrite Hst. apply Z.eqb_neq in Hne. rewrite Hne. simpl.
  destruct (sendCommand_spec (slot (_cmdQueue (self w)) (_queueHead (self w))) w)
    as (wr & sr & E & Hw).
  rewrite E, Hok. simpl.
  exists wr, sr. split; [|assumption].
  unfold send_ok in Hok.
  destruct (type (slot (_cmdQueue (self w)) (_queueHead (self w)))); try discriminate;
    reflexivity.
Qed.

Lemma processNextCommand_failed w :
  _state (self w) = READY -> _queueHead (self w) <> _queueTail (self w) ->
  send_ok (slot (_cmdQueue (self w)) (_queueHead (self w))) w = false ->
  exists w1,
    processNextCommand w = (false, snd (handleError w1)) /\
    self w1 = self w /\
    _SerLCD0_Debug w1 = _SerLCD0_Debug w /\
    _SerLCD0_ErrorThreshold w1 = _SerLCD0_ErrorThreshold w /\
    clock w1 = clock w /\ clock_reads w1 = clock_reads w /\
    bus_status w1 = bus_status w /\ uninit w1 = uninit w /\
    wire_bytes (wire w1) =
      wire_bytes (wire w) ++ encode (slot (_cmdQueue (self w)) (_queueHead (self w))).
Proof.
  intros Hst Hne Hok. unfold processNextCommand. cbv [bind ret this assign millis].
  rewrite Hst. apply Z.eqb_neq in Hne. rewrite Hne. simpl.
  destruct (sendCommand_spec (slot (_cmdQueue (self w)) (_queueHead (self w))) w)
    as (wr & sr & E & Hw).
  rewrite E, Hok. cbv iota beta.
  match goal with |- context [handleError ?x] =>
    exists x; split; [destruct (handleError x) as [[] w2]; reflexivity|] end.
  fields. repeat split; try reflexivity. assumption.
Qed.

(** *** The branches of [update] *)

(** The world after the [millis()] call that opens [update]. *)
Lemma update_ready_nonempty w :
  _state (self w) = READY -> _queueHead (self w) <> _queueTail (self w) ->
  update w = processNextCommand (set_clock_reads (S (clock_reads w)) w).
Proof.
  destruct w as [s dbg thr ck cr bs be wr sr un]. destruct s. fields_cbv.
  intros -> Hne. apply Z.eqb_neq in Hne.
  unfold update. cbv [bind ret this millis]. fields_cbv.
  rewrite Hne. reflexivity.
Qed.

Lemma update_ready_empty w :
  _state (self w) = READY -> _queueHead (self w) = _queueTail (self w) ->
  update w = (true, set_clock_reads (S (clock_reads w)) w).
Proof.
  destruct w as [s dbg thr ck cr bs be wr sr un]. destruct s. fields_cbv.
  intros -> ->.
  unfold update. cbv [bind ret this millis isReady]. fields_cbv.
  rewrite Z.eqb_refl. reflexivity.
Qed.

Lemma update_processing w :
  _state (self w) = PROCESSING ->
  update w =
    let elapsed :=
      ulong (ulong (clock w (clock_reads w)) - _lastActionTime (self w))
        >=? _cmdTime (self w) in
    (elapsed,
     set_clock_reads (S (clock_reads w))
       (if elapsed then with_state READY w else w)).
Proof.
  destruct w as [s dbg thr ck cr bs be wr sr un]. destruct s. fields_cbv.
  intros ->. unfold update. cbv [bind ret this millis isReady when assign].
  fields_cbv.
  match goal with |- context [if ?b then _ else _] => destruct b end;
    reflexivity.
Qed.

Lemma update_awaiting w :
  _state (self w) = AWAITING_RESPONSE ->
  update w = (false, set_clock_reads (S (clock_reads w)) w).
Proof.
  destruct w as [s dbg thr ck cr bs be wr sr un]. destruct s. fields_cbv.
  intros ->. unfold update. cbv [bind ret this millis isReady]. fields_cbv.
  reflexivity.
Qed.

Lemma update_error_wait w :
  _state (self w) = ERROR ->
  (ulong (ulong (clock w (clock_reads w)) - _lastActionTime (self w))
     >=? _errorResetTime (self w)) = false ->
  update w = (false, set_clock_reads (S (clock_reads w)) w).
Proof.
  destruct w as [s dbg thr ck cr bs be wr sr un]. destruct s. fields_cbv.
  intros -> He. unfold update. cbv [bind ret this millis when]. fields_cbv.
  rewrite He. reflexivity.
Qed.

(** *** The ring buffer *)

Lemma u8_mod_QUEUE_SIZE x : u8 (x mod QUEUE_SIZE) = x mod QUEUE_SIZE.
Proof.
  unfold u8, QUEUE_SIZE. apply Z.mod_small.
  pose proof (Z.mod_pos_bound x 32). lia.
Qed.

Lemma getQueueCount_mod s :
  queue_ok s -> getQueueCount s = (_queueTail s - _queueHead s) mod QUEUE_SIZE.
Proof.
  unfold queue_ok, getQueueCount, u8, QUEUE_SIZE. intros (Hh & Ht & _).
  destruct (Z.geb_spec (_queueTail s) (_queueHead s)).
  - rewrite !Z.mod_small by lia. reflexivity.
  - rewrite Z.mod_small by lia.
    replace (_queueTail s - _queueHead s)
      with (32 - (_queueHead s - _queueTail s) + (-1) * 32) by lia.
    rewrite Z.mod_add by lia. rewrite Z.mod_small by lia. reflexivity.
Qed.

Lemma slot_store_eq q i c :
  0 <= i -> (Z.to_nat i < length q)%nat -> slot (store q i c) i = c.
Proof.
  intros. unfold slot, store.
  rewrite nth_lookup, list_lookup_insert_eq by assumption. reflexivity.
Qed.

Lemma slot_store_ne q i j c :
  0 <= i -> 0 <= j -> i <> j -> slot (store q i c) j = slot q j.
Proof.
  intros. unfold slot, store.
  rewrite !nth_lookup, list_lookup_insert_ne by lia. reflexivity.
Qed.

Lemma length_store q i c : length (store q i c) = length q.
Proof. unfold store. apply length_insert. Qed.

(** The queue is empty exactly when the indices agree, and full exactly when
    the next tail is the head. *)
Lemma pending_length s : length (pending s) = Z.to_nat (getQueueCount s).
Proof. unfold pending. rewrite length_map, length_seq. reflexivity. Qed.

Lemma pending_empty s :
  queue_ok s -> _queueHead s = _queueTail s -> pending s = [].
Proof.
  intros Hok He. unfold pending. rewrite getQueueCount_mod by assumption.
  rewrite He, Z.sub_diag. reflexivity.
Qed.

Lemma full_iff_count s :
  queue_ok s ->
  (_queueTail s + 1) mod QUEUE_SIZE = _queueHead s <->
  getQueueCount s = QUEUE_SIZE - 1.
Proof.
  intros Hok. rewrite getQueueCount_mod by assumption.
  destruct Hok as (Hh & Ht & _). unfold QUEUE_SIZE in *.
  split; intros H; revert H; Z.div_mod_to_equations; lia.
Qed.

(** A successful enqueue appends at the back. *)
Lemma pending_enqueue s cmd :
  queue_ok s ->
  (_queueTail s + 1) mod QUEUE_SIZE <> _queueHead s ->
  pending (set_queueTail ((_queueTail s + 1) mod QUEUE_SIZE)
             (set_cmdQueue (store (_cmdQueue s) (_queueTail s) cmd) s))
  = pending s ++ [cmd].
Proof.
  intros Hok Hn.
  assert (Hok' : queue_ok (set_queueTail ((_queueTail s + 1) mod QUEUE_SIZE)
             (set_cmdQueue (store (_cmdQueue s) (_queueTail s) cmd) s))).
  { destruct Hok as (Hh & Ht & Hl). unfold queue_ok. fields.
    rewrite length_store. repeat split; try lia; try assumption;
      apply Z.mod_pos_bound; reflexivity. }
  unfold pending. rewrite !getQueueCount_mod by assumption. fields.
  destruct Hok as (Hh & Ht & Hl). unfold QUEUE_SIZE in *.
  set (h := _queueHead s) in *. set (t := _queueTail s) in *.
  set (q := _cmdQueue s) in *.
  assert (E : Z.to_nat (((t + 1) mod 32 - h) mod 32) = S (Z.to_nat ((t - h) mod 32))).
  { Z.div_mod_to_equations. lia. }
  rewrite E, seq_S, map_app. cbn [map Nat.add]. f_equal.
  - apply map_ext_in. intros k Hk. apply in_seq in Hk.
    apply slot_store_ne; [lia| apply Z.mod_pos_bound; lia |].
    revert Hk. Z.div_mod_to_equations. lia.
  - f_equal. replace ((h + Z.of_nat (Z.to_nat ((t - h) mod 32))) mod 32) with t.
    + apply slot_store_eq; lia.
    + Z.div_mod_to_equations. lia.
Qed.

(** Advancing the head removes the oldest command. *)
Lemma pending_dequeue s :
  queue_ok s -> _queueHead s <> _queueTail s ->
  pending s =
    slot (_cmdQueue s) (_queueHead s)
      :: pending (set_queueHead ((_queueHead s + 1) mod QUEUE_SIZE) s).
Proof.
  intros Hok Hn.
  assert (Hok' : queue_ok (set_queueHead ((_queueHead s + 1) mod QUEUE_SIZE) s)).
  { destruct Hok as (Hh & Ht & Hl). unfold queue_ok. fields.
    repeat split; try lia; try assumption; apply Z.mod_pos_bound; reflexivity. }
  unfold pending. rewrite !getQueueCount_mod by assumption. fields.
  destruct Hok as (Hh & Ht & Hl). unfold QUEUE_SIZE in *.
  set (h := _queueHead s) in *. set (t := _queueTail s) in *.
  set (q := _cmdQueue s) in *.
  assert (E : Z.to_nat ((t - h) mod 32) = S (Z.to_nat ((t - (h + 1) mod 32) mod 32))).
  { Z.div_mod_to_equations. lia. }
  rewrite E. cbn [seq map]. f_equal.
  - f_equal. change (Z.of_nat 0) with 0. rewrite Z.add_0_r. apply Z.mod_small; lia.
  - rewrite <- seq_shift, map_map. apply map_ext. intros k.
    f_equal. rewrite Z.add_mod_idemp_l by lia. f_equal. lia.
Qed.

(** [pending] only looks at the array and the two indices. *)
Lemma pending_ext s s' :
  _cmdQueue s' = _cmdQueue s -> _queueHead s' = _queueHead s ->
  _queueTail s' = _queueTail s -> pending s' = pending s.
Proof.
  intros Hq Hh Ht. unfold pending, getQueueCount. rewrite Hq, Hh, Ht. reflexivity.
Qed.

Lemma queue_ok_ext s s' :
  _cmdQueue s' = _cmdQueue s -> _queueHead s' = _queueHead s ->
  _queueTail s' = _queueTail s -> queue_ok s -> queue_ok s'.
Proof.
  intros Hq Hh Ht. unfold queue_ok. rewrite Hq, Hh, Ht. tauto.
Qed.

(** *** Projections of the effects *)

Lemma handleError_self w :
  self (snd (handleError w)) =
    let s := self w in
    let c := u8 (_errorCount s + 1) in
    let now := ulong (clock w (clock_reads w)) in
    if c >? _SerLCD0_ErrorThreshold w
    then set_lastActionTime now
           (set_queueTail 0 (set_queueHead 0
              (set_needsFullRefresh true (set_state ERROR (set_errorCount c s)))))
    else set_lastActionTime now (set_errorCount c s).
Proof. destruct (handleError_spec w) as (sr & E). rewrite E. reflexivity. Qed.

Lemma queueCommand_result cmd w :
  fst (queueCommand cmd w) =
    negb (u8 ((_queueTail (self w) + 1) mod QUEUE_SIZE) =? _queueHead (self w)).
Proof.
  rewrite queueCommand_spec.
  destruct (u8 ((_queueTail (self w) + 1) mod QUEUE_SIZE) =? _queueHead (self w));
    reflexivity.
Qed.

Lemma queueCommand_self cmd w :
  self (snd (queueCommand cmd w)) =
    if u8 ((_queueTail (self w) + 1) mod QUEUE_SIZE) =? _queueHead (self w)
    then self (snd (handleError w))
    else set_queueTail (u8 ((_queueTail (self w) + 1) mod QUEUE_SIZE))
           (set_cmdQueue (store (_cmdQueue (self w)) (_queueTail (self w)) cmd)
              (self w)).
Proof.
  rewrite queueCommand_spec.
  destruct (u8 ((_queueTail (self w) + 1) mod QUEUE_SIZE) =? _queueHead (self w));
    reflexivity.
Qed.

(** The queue after an enqueue, from the queue, the counter and the
    threshold before it. *)
Lemma queueCommand_view cmd w :
  queue_view (self (snd (queueCommand cmd w))) =
    let s := self w in
    let nextTail := u8 ((_queueTail s + 1) mod QUEUE_SIZE) in
    if nextTail =? _queueHead s
    then if u8 (_errorCount s + 1) >? _SerLCD0_ErrorThreshold w
         then (_cmdQueue s, 0, 0)
         else (_cmdQueue s, _queueHead s, _queueTail s)
    else (store (_cmdQueue s) (_queueTail s) cmd, _queueHead s, nextTail).
Proof.
  rewrite queueCommand_self, handleError_self. cbv zeta.
  destruct (u8 ((_queueTail (self w) + 1) mod QUEUE_SIZE) =? _queueHead (self w));
    [|reflexivity].
  destruct (u8 (_errorCount (self w) + 1) >? _SerLCD0_ErrorThreshold w);
    reflexivity.
Qed.

(** The other members of the world across an enqueue. *)
Lemma queueCommand_env cmd w :
  let w' := snd (queueCommand cmd w) in
  _SerLCD0_Debug w' = _SerLCD0_Debug w /\
  _SerLCD0_ErrorThreshold w' = _SerLCD0_ErrorThreshold w /\
  clock w' = clock w /\ bus_status w' = bus_status w /\
  bus_ends w' = bus_ends w /\ wire w' = wire w /\ uninit w' = uninit w.
Proof.
  rewrite queueCommand_spec. destruct (handleError_spec w) as (sr & E). rewrite E.
  destruct (u8 ((_queueTail (self w) + 1) mod QUEUE_SIZE) =? _queueHead (self w));
    cbv zeta; destruct w; repeat split; reflexivity.
Qed.

(** * The claims *)

(** ** Protocol encoder *)

(** C8: sending a character-write command whose byte is the special prefix
    (254) or the setting prefix (0x7C) performs one transaction that writes
    exactly two bytes, both that value; for every other byte value it writes
    exactly that one byte. *)
Theorem C8_character_write_escape (b d1 d2 len : Z) (w : World) :
  wire (snd (sendCommand (mkLCDCommand WRITE_CHAR b d1 d2 len) w)) =
    wire w ++
    [beginTransmission (_i2cAddr (self w))] ++
    map write_byte
      (if (b =? 254) || (b =? 0x7C) then [b; b] else [b]) ++
    [endTransmission (bus_status w (bus_ends w))].
Proof.
  destruct w as [s dbg thr ck cr bs be wr sr un].
  unfold sendCommand. unfold_monad. fields_cbv.
  change SPECIAL_COMMAND with 254. change SETTING_COMMAND with 0x7C.
  destruct ((b =? 254) || (b =? 0x7C))%bool; fields_cbv;
    repeat match goal with |- context [if ?c then _ else _] => destruct c end;
    fields_cbv; cbn [map app]; rewrite <- ?app_assoc; reflexivity.
Qed.

(** ** Enqueue and the dispatch state *)

Lemma queueCommand_state_indep cmd w st1 st2 :
  fst (queueCommand cmd (with_state st1 w)) =
    fst (queueCommand cmd (with_state st2 w)) /\
  queue_view (self (snd (queueCommand cmd (with_state st1 w)))) =
    queue_view (self (snd (queueCommand cmd (with_state st2 w)))).
Proof.
  rewrite !queueCommand_result, !queueCommand_view. split; reflexivity.
Qed.

(** The convenience calls are [queueCommand] on the command they build. *)
Lemma write_spec b w :
  write b w =
    let r := queueCommand (mkLCDCommand WRITE_CHAR b (data_1 (uninit w))
                             (data_2 (uninit w)) 1) w in
    (if fst r then 1 else 0, snd r).
Proof.
  unfold write. cbv [bind ret local_cmd static]. fields_cbv.
  match goal with |- context [queueCommand ?c w] =>
    destruct (queueCommand c w) as [ok w'] end.
  reflexivity.
Qed.

Lemma clear_spec w :
  clear w = (tt, snd (queueCommand (clear_cmd (uninit w)) w)).
Proof.
  unfold clear, clear_cmd. cbv [bind ret local_cmd static]. fields_cbv.
  match goal with |- context [queueCommand ?c w] =>
    destruct (queueCommand c w) as [ok w'] end.
  reflexivity.
Qed.

Lemma home_spec w :
  home w =
    (tt, snd (queueCommand (mkLCDCommand SPECIAL_CMD HOME_COMMAND
                              (data_1 (uninit w)) (data_2 (uninit w)) 1) w)).
Proof.
  unfold home. cbv [bind ret local_cmd static]. fields_cbv.
  match goal with |- context [queueCommand ?c w] =>
    destruct (queueCommand c w) as [ok w'] end.
  reflexivity.
Qed.

Lemma setCursor_spec col row w :
  setCursor col row w =
    (tt, snd (queueCommand
                (mkLCDCommand SPECIAL_CMD
                   (u8 (Z.lor 0x80 (col + nth (Z.to_nat (Z.min row 3)) row_offsets 0)))
                   (data_1 (uninit w)) (data_2 (uninit w)) 1) w)).
Proof.
  unfold setCursor. cbv [bind ret local_cmd static]. fields_cbv.
  match goal with |- context [queueCommand ?c w] =>
    destruct (queueCommand c w) as [ok w'] end.
  reflexivity.
Qed.

(** [setBacklight] differs from its [queueCommand] only in what it prints. *)
Lemma setBacklight_self r g b w :
  self (snd (setBacklight r g b w)) =
    self (snd (queueCommand (backlight_cmd r g b) w)).
Proof.
  destruct w as [s dbg thr ck cr bs be wr sr un].
  unfold setBacklight, backlight_cmd.
  cbv [bind ret local_cmd static when Serial_out].
  destruct dbg; fields;
    match goal with |- context [let (_, _) := queueCommand ?c ?W in _] =>
      pose proof (queueCommand_self c W) as Hs;
      pose proof (queueCommand_env c W) as He;
      destruct (queueCommand c W) as [ok w'] end;
    destruct w' as [s' dbg' thr' ck' cr' bs' be' wr' sr' un'];
    cbv zeta in He; fields; destruct He as (-> & _); fields; rewrite Hs;
    rewrite queueCommand_self, !handleError_self; reflexivity.
Qed.

(** C9: whether an enqueue succeeds and what the queue holds afterwards do
    not depend on the dispatch state: for two drivers that differ only in
    [_state], [queueCommand] and each convenience call built on it ([write],
    [clear], [home], [setCursor], [setBacklight]) return the same result and
    leave the same array and indices. *)
Theorem C9_enqueue_independent_of_state (w : World) (st1 st2 : State)
    (cmd : LCDCommand) (b col row r g bl : Z) :
  let w1 := with_state st1 w in
  let w2 := with_state st2 w in
  let view (w' : World) := queue_view (self w') in
  (fst (queueCommand cmd w1) = fst (queueCommand cmd w2) /\
   view (snd (queueCommand cmd w1)) = view (snd (queueCommand cmd w2))) /\
  (fst (write b w1) = fst (write b w2) /\
   view (snd (write b w1)) = view (snd (write b w2))) /\
  view (snd (clear w1)) = view (snd (clear w2)) /\
  view (snd (home w1)) = view (snd (home w2)) /\
  view (snd (setCursor col row w1)) = view (snd (setCursor col row w2)) /\
  view (snd (setBacklight r g bl w1)) = view (snd (setBacklight r g bl w2)).
Proof.
  cbv zeta.
  rewrite !write_spec, !clear_spec, !home_spec, !setCursor_spec, !setBacklight_self.
  cbv zeta. cbn [fst snd].
  change (uninit (with_state st1 w)) with (uninit w).
  change (uninit (with_state st2 w)) with (uninit w).
  pose proof (fun c => proj1 (queueCommand_state_indep c w st1 st2)) as Hres.
  pose proof (fun c => proj2 (queueCommand_state_indep c w st1 st2)) as Hview.
  rewrite !Hres. repeat split; apply Hview.
Qed.

(** ** Reinitialisation and recovery *)

(** [reinitialize] leaves a queue holding exactly the clear command and the
    white-backlight command, the counter at 0, the refresh flag set, and the
    state [PROCESSING], time-stamped with the next clock reading. *)
Lemma reinitialize_spec w :
  exists sr,
    reinitialize w =
      (tt,
       mkWorld
         (mkSerLCD0
            (store (store (_cmdQueue (self w)) 0 (clear_cmd (uninit w))) 1
               (backlight_cmd 255 255 255))
            0 2 (_initTime (self w)) (_cmdTime (self w)) (_clearTime (self w))
            (_errorResetTime (self w)) (_i2cAddr (self w)) PROCESSING
            (ulong (clock w (clock_reads w))) 0 true)
         (_SerLCD0_Debug w) (_SerLCD0_ErrorThreshold w) (clock w)
         (S (clock_reads w)) (bus_status w) (bus_ends w) (wire w) sr (uninit w)).
Proof.
  destruct w as [s dbg thr ck cr bs be wr sr un]. destruct s. destruct un.
  unfold reinitialize, clear, setBacklight, clear_cmd, backlight_cmd.
  destruct dbg; unfold_monad; fields_cbv;
    rewrite queueCommand_spec; fields_cbv;
    change (u8 ((0 + 1) mod QUEUE_SIZE)) with 1; change (1 =? 0) with false;
    cbv iota beta; fields_cbv;
    rewrite queueCommand_spec; fields_cbv;
    change (u8 ((1 + 1) mod QUEUE_SIZE)) with 2; change (2 =? 0) with false;
    cbv iota beta; fields_cbv;
    eexists; reflexivity.
Qed.

Lemma update_error_recover w :
  _state (self w) = ERROR ->
  (ulong (ulong (clock w (clock_reads w)) - _lastActionTime (self w))
     >=? _errorResetTime (self w)) = true ->
  exists sr,
    update w =
      (false,
       mkWorld
         (mkSerLCD0
            (store (store (_cmdQueue (self w)) 0 (clear_cmd (uninit w))) 1
               (backlight_cmd 255 255 255))
            0 2 (_initTime (self w)) (_cmdTime (self w)) (_clearTime (self w))
            (_errorResetTime (self w)) (_i2cAddr (self w)) PROCESSING
            (ulong (clock w (S (clock_reads w)))) 0 true)
         (_SerLCD0_Debug w) (_SerLCD0_ErrorThreshold w) (clock w)
         (S (S (clock_reads w))) (bus_status w) (bus_ends w) (wire w) sr
         (uninit w)).
Proof.
  destruct w as [s dbg thr ck cr bs be wr sr un]. destruct s. fields_cbv.
  intros -> He. unfold update. cbv [bind ret this millis when assign]. fields_cbv.
  rewrite He.
  match goal with |- context [reinitialize ?W] =>
    destruct (reinitialize_spec W) as (sr' & E); rewrite E end.
  fields_cbv. exists sr'. reflexivity.
Qed.

(** ** One tick, summarised *)

(** A tick that finds the driver [READY] with a non-empty queue hands the
    head command to the bus; what happens next depends on [sendCommand]. *)
Lemma update_dispatch w :
  _state (self w) = READY -> _queueHead (self w) <> _queueTail (self w) ->
  let s := self w in
  let cmd := slot (_cmdQueue s) (_queueHead s) in
  let now := ulong (clock w (S (clock_reads w))) in
  fst (update w) = send_ok cmd w /\
  wire_bytes (wire (snd (update w))) = wire_bytes (wire w) ++ encode cmd /\
  self (snd (update w)) =
    if send_ok cmd w
    then set_lastActionTime now
           (set_state PROCESSING
              (set_queueHead (u8 ((_queueHead s + 1) mod QUEUE_SIZE)) s))
    else
      let c := u8 (_errorCount s + 1) in
      if c >? _SerLCD0_ErrorThreshold w
      then set_lastActionTime now
             (set_queueTail 0 (set_queueHead 0
                (set_needsFullRefresh true (set_state ERROR (set_errorCount c s)))))
      else set_lastActionTime now (set_errorCount c s).
Proof.
  intros Hst Hne. cbv zeta. rewrite update_ready_nonempty by assumption.
  set (W := set_clock_reads (S (clock_reads w)) w).
  assert (HsW : self W = self w) by reflexivity.
  assert (Hok : send_ok (slot (_cmdQueue (self W)) (_queueHead (self W))) W =
                send_ok (slot (_cmdQueue (self w)) (_queueHead (self w))) w)
    by reflexivity.
  destruct (send_ok (slot (_cmdQueue (self w)) (_queueHead (self w))) w) eqn:Eok.
  - destruct (processNextCommand_sent W) as (wr & sr & E & Hw);
      [assumption | assumption | assumption |].
    rewrite E. fields. repeat split; assumption || reflexivity.
  - destruct (processNextCommand_failed W) as (w1 & E & Hs1 & _ & Ht1 & Hc1 & Hr1 & _ & _ & Hw1);
      [assumption | assumption | assumption |].
    rewrite E. destruct (handleError_spec w1) as (sr & E1). rewrite E1.
    fields. rewrite Hs1, Ht1, Hc1, Hr1. fields.
    split; [reflexivity|]. split; [assumption|].
    change (self W) with (self w).
    change (_SerLCD0_ErrorThreshold W) with (_SerLCD0_ErrorThreshold w).
    change (clock W (clock_reads W)) with (clock w (S (clock_reads w))).
    reflexivity.
Qed.

(** Every other tick writes nothing on the bus and only moves the state
    machine. *)
Lemma update_no_dispatch w :
  _state (self w) <> READY \/ _queueHead (self w) = _queueTail (self w) ->
  let s := self w in
  let elapsed := ulong (ulong (clock w (clock_reads w)) - _lastActionTime s) in
  wire (snd (update w)) = wire w /\
  fst (update w) = State_eqb (_state (self (snd (update w)))) READY /\
  self (snd (update w)) =
    match _state s with
    | PROCESSING => if elapsed >=? _cmdTime s then set_state READY s else s
    | ERROR =>
        if elapsed >=? _errorResetTime s
        then mkSerLCD0
               (store (store (_cmdQueue s) 0 (clear_cmd (uninit w))) 1
                  (backlight_cmd 255 255 255))
               0 2 (_initTime s) (_cmdTime s) (_clearTime s)
               (_errorResetTime s) (_i2cAddr s) PROCESSING
               (ulong (clock w (S (clock_reads w)))) 0 true
        else s
    | _ => s
    end.
Proof.
  intros H. cbv zeta. destruct (_state (self w)) eqn:Hst.
  - destruct H as [H|H]; [congruence|].
    rewrite update_ready_empty by assumption. fields. rewrite Hst.
    repeat split; reflexivity.
  - rewrite update_processing by assumption. cbv zeta.
    destruct (ulong (ulong (clock w (clock_reads w)) - _lastActionTime (self w))
                >=? _cmdTime (self w)); fields; rewrite ?Hst;
      repeat split; reflexivity.
  - rewrite update_awaiting by assumption. fields. rewrite Hst.
    repeat split; reflexivity.
  - destruct (ulong (ulong (clock w (clock_reads w)) - _lastActionTime (self w))
                >=? _errorResetTime (self w)) eqn:He.
    + destruct (update_error_recover w Hst He) as (sr & E). rewrite E. fields.
      repeat split; reflexivity.
    + rewrite update_error_wait by assumption. fields. rewrite Hst.
      repeat split; reflexivity.
Qed.

(** ** The tick *)

(** C5 does not hold as stated.  With one command queued and a bus that
    rejects the transaction, the driver is [READY] before and after the tick,
    yet [update] returns [false]; with a bus that accepts it, [update]
    returns [true] although the driver is then [PROCESSING]. *)
Lemma C5_counterexample :
  (let w := one_char_world 1 (fun _ => 4) in
   _state (self w) = READY /\
   _state (self (snd (update w))) = READY /\
   fst (update w) = false) /\
  (let w := one_char_world 1 (fun _ => 0) in
   _state (self (snd (update w))) = PROCESSING /\
   fst (update w) = true).
Proof. vm_compute. repeat split; reflexivity. Qed.

(** C5, amended: when the tick dispatches (the driver is [READY] and the
    queue is not empty on entry) [update] returns the result of sending the
    head command; in every other case it returns whether the driver is
    [READY] when the tick ends. *)
Theorem C5_update_result (w : World) :
  fst (update w) =
    if State_eqb (_state (self w)) READY
       && negb (_queueHead (self w) =? _queueTail (self w))
    then send_ok (slot (_cmdQueue (self w)) (_queueHead (self w))) w
    else State_eqb (_state (self (snd (update w)))) READY.
Proof.
  destruct (State_eqb (_state (self w)) READY) eqn:Hst;
    [destruct (Z.eqb_spec (_queueHead (self w)) (_queueTail (self w))) as [He|Hne]|];
    cbn [andb negb].
  - apply update_no_dispatch. right. assumption.
  - apply update_dispatch; [|assumption].
    destruct (_state (self w)); try discriminate; reflexivity.
  - apply update_no_dispatch. left. intros E. rewrite E in Hst. discriminate.
Qed.

(** C1 does not hold as stated.  One command is queued, the bus rejects the
    transaction and the counter stays at the threshold: after the tick the
    command is still the head of the queue, and the next tick writes its
    byte again. *)
Lemma C1_counterexample :
  let w := one_char_world 1 (fun _ => 4) in
  let cmd := slot (_cmdQueue (self w)) (_queueHead (self w)) in
  _state (self w) = READY /\
  (_queueHead (self w) =? _queueTail (self w)) = false /\
  send_ok cmd w = false /\
  (u8 (_errorCount (self w) + 1) <=? _SerLCD0_ErrorThreshold w) = true /\
  pending (self w) = [cmd] /\
  pending (self (snd (update w))) = [cmd] /\
  wire_bytes (wire (snd (update w))) = [65] /\
  wire_bytes (wire (snd (update (snd (update w))))) = [65; 65].
Proof. vm_compute. repeat split; reflexivity. Qed.

(** C1, amended: when the driver is [READY], the queue is not empty, the
    transaction for the head command fails and the incremented counter is at
    or below the threshold, the tick returns [false], leaves the driver
    [READY] and the queue (array and indices) unchanged, so the failed
    command is still the head; the next tick hands the same command to the
    bus again. *)
Theorem C1_failed_command_stays_queued (w : World) :
  _state (self w) = READY ->
  _queueHead (self w) <> _queueTail (self w) ->
  send_ok (slot (_cmdQueue (self w)) (_queueHead (self w))) w = false ->
  u8 (_errorCount (self w) + 1) <= _SerLCD0_ErrorThreshold w ->
  let cmd := slot (_cmdQueue (self w)) (_queueHead (self w)) in
  let w1 := snd (update w) in
  let w2 := snd (update w1) in
  fst (update w) = false /\
  _state (self w1) = READY /\
  queue_view (self w1) = queue_view (self w) /\
  pending (self w1) = pending (self w) /\
  _errorCount (self w1) = u8 (_errorCount (self w) + 1) /\
  wire_bytes (wire w1) = wire_bytes (wire w) ++ encode cmd /\
  wire_bytes (wire w2) = wire_bytes (wire w1) ++ encode cmd.
Proof.
  intros Hst Hne Hfail Hle. cbv zeta.
  destruct (update_dispatch w Hst Hne) as (Hr & Hw & Hs). cbv zeta in Hs.
  rewrite Hfail in Hr, Hs.
  assert (Hgt : (u8 (_errorCount (self w) + 1) >? _SerLCD0_ErrorThreshold w) = false).
  { rewrite Z.gtb_ltb. apply Z.ltb_ge. assumption. }
  rewrite Hgt in Hs.
  assert (Hst1 : _state (self (snd (update w))) = READY) by (rewrite Hs; exact Hst).
  assert (Hq1 : queue_view (self (snd (update w))) = queue_view (self w))
    by (rewrite Hs; reflexivity).
  assert (Hne1 : _queueHead (self (snd (update w))) <> _queueTail (self (snd (update w))))
    by (rewrite Hs; exact Hne).
  destruct (update_dispatch (snd (update w)) Hst1 Hne1) as (_ & Hw2 & _).
  repeat split; try assumption.
  - rewrite Hs. reflexivity.
  - rewrite Hs. reflexivity.
  - rewrite Hw2. unfold queue_view in Hq1. injection Hq1 as Hq Hh Ht.
    rewrite Hq, Hh. reflexivity.
Qed.

Lemma C1_failed_command_stays_queued_witness :
  wire_bytes (wire (snd (update (snd (update (one_char_world 1 (fun _ => 4))))))) =
    wire_bytes (wire (snd (update (one_char_world 1 (fun _ => 4))))) ++ [65].
Proof.
  refine (proj2 (proj2 (proj2 (proj2 (proj2 (proj2
    (C1_failed_command_stays_queued (one_char_world 1 (fun _ => 4)) _ _ _ _)))))));
    vm_compute; congruence.
Defined.

(** ** Recovery from [ERROR] *)

Lemma pending_reinitialized q c1 c2 a1 a2 a3 a4 a5 st t e r :
  length q = Z.to_nat QUEUE_SIZE ->
  pending (mkSerLCD0 (store (store q 0 c1) 1 c2) 0 2 a1 a2 a3 a4 a5 st t e r)
  = [c1; c2].
Proof.
  intros Hl. unfold pending, getQueueCount.
  cbn [_queueHead _queueTail _cmdQueue].
  change (Z.to_nat (if 2 >=? 0 then u8 (2 - 0) else u8 (QUEUE_SIZE - (0 - 2))))
    with 2%nat.
  cbn [seq map].
  change ((0 + Z.of_nat 0) mod QUEUE_SIZE) with 0.
  change ((0 + Z.of_nat 1) mod QUEUE_SIZE) with 1.
  change (Z.to_nat QUEUE_SIZE) with 32%nat in Hl.
  rewrite slot_store_ne by lia.
  rewrite !slot_store_eq; rewrite ?length_store; try reflexivity; lia.
Qed.

(** C3 does not hold as stated.  The driver is in [ERROR] and the recovery
    time has elapsed, yet after the tick the state is [PROCESSING], not
    [READY] (and [update] returned [false]). *)
Lemma C3_counterexample :
  _state (self error_world) = ERROR /\
  (ulong (ulong (clock error_world (clock_reads error_world))
          - _lastActionTime (self error_world))
     >=? _errorResetTime (self error_world)) = true /\
  _state (self (snd (update error_world))) = PROCESSING /\
  _state (self (snd (update error_world))) <> READY /\
  fst (update error_world) = false.
Proof. vm_compute. repeat split; congruence. Qed.

(** C3, amended: when the driver is in [ERROR] and the time since
    [_lastActionTime] is at least [_errorResetTime], one tick clears the
    error counter to 0 and reinitialises the driver: the queue holds exactly
    the clear command followed by the white-backlight command, the refresh
    flag is set, the time stamp is renewed, and the state is [PROCESSING];
    the tick itself returns [false]. *)
Theorem C3_error_recovery (w : World) :
  _state (self w) = ERROR ->
  _errorResetTime (self w) <=
    ulong (ulong (clock w (clock_reads w)) - _lastActionTime (self w)) ->
  length (_cmdQueue (self w)) = Z.to_nat QUEUE_SIZE ->
  let w' := snd (update w) in
  fst (update w) = false /\
  _errorCount (self w') = 0 /\
  _state (self w') = PROCESSING /\
  _queueHead (self w') = 0 /\ _queueTail (self w') = 2 /\
  pending (self w') = [clear_cmd (uninit w); backlight_cmd 255 255 255] /\
  _needsFullRefresh (self w') = true /\
  _lastActionTime (self w') = ulong (clock w (S (clock_reads w))) /\
  wire w' = wire w.
Proof.
  intros Hst He Hl. cbv zeta.
  assert (He' : (ulong (ulong (clock w (clock_reads w)) - _lastActionTime (self w))
                   >=? _errorResetTime (self w)) = true).
  { rewrite Z.geb_leb. apply Z.leb_le. lia. }
  destruct (update_error_recover w Hst He') as (sr & E). rewrite E. fields.
  rewrite pending_reinitialized by assumption.
  repeat split; reflexivity.
Qed.

Lemma C3_error_recovery_witness :
  _state (self (snd (update error_world))) = PROCESSING.
Proof.
  refine (proj1 (proj2 (proj2 (C3_error_recovery error_world _ _ _))));
    vm_compute; congruence.
Defined.

(** ** Error threshold *)

Lemma handleError_times_S n w :
  snd (handleError_times (S n) w) = snd (handleError (snd (handleError_times n w))).
Proof.
  revert w. induction n as [|n IH]; intros w.
  - cbn [handleError_times]. cbv [bind ret]. cbn [snd].
    destruct (handleError w) as [[] w']. reflexivity.
  - change (handleError_times (S (S n)) w)
      with (bind handleError (fun _ => handleError_times (S n)) w).
    cbv [bind]. destruct (handleError w) as [[] w'] eqn:E.
    rewrite IH. cbn [handleError_times]. cbv [bind]. rewrite E. reflexivity.
Qed.

(** While the counter stays at or below the threshold, [handleError] only
    counts and time-stamps. *)
Lemma handleError_times_below n w :
  0 <= _errorCount (self w) ->
  _errorCount (self w) + Z.of_nat n <= _SerLCD0_ErrorThreshold w ->
  _SerLCD0_ErrorThreshold w < 256 ->
  let w' := snd (handleError_times n w) in
  _errorCount (self w') = _errorCount (self w) + Z.of_nat n /\
  _state (self w') = _state (self w) /\
  queue_view (self w') = queue_view (self w) /\
  _needsFullRefresh (self w') = _needsFullRefresh (self w) /\
  _SerLCD0_ErrorThreshold w' = _SerLCD0_ErrorThreshold w.
Proof.
  revert w. induction n as [|n IH]; intros w H0 Hle Hthr; cbv zeta.
  - cbn [handleError_times]. cbv [ret]. cbn [snd].
    rewrite Z.add_0_r. repeat split; reflexivity.
  - cbn [handleError_times]. cbv [bind].
    destruct (handleError_spec w) as (sr & E). rewrite E. clear E.
    cbv beta iota zeta.
    assert (Hu : u8 (_errorCount (self w) + 1) = _errorCount (self w) + 1)
      by (unfold u8; apply Z.mod_small; lia).
    rewrite Hu.
    assert (Hgt : (_errorCount (self w) + 1 >? _SerLCD0_ErrorThreshold w) = false)
      by (rewrite Z.gtb_ltb; apply Z.ltb_ge; lia).
    rewrite Hgt.
    match goal with |- context [handleError_times n ?W] =>
      specialize (IH W); cbv zeta in IH; fields;
      destruct IH as (Hc & Hs & Hq & Hr & Ht); [lia | lia | lia |] end.
    rewrite Hc, Hs, Hq, Hr, Ht. repeat split; try reflexivity. lia.
Qed.

Lemma pending_reset s :
  _queueHead s = 0 -> _queueTail s = 0 -> pending s = [].
Proof.
  intros Hh Ht. unfold pending, getQueueCount. rewrite Hh, Ht. reflexivity.
Qed.

(** Below 255: starting from error counter 0 in [READY], after T failures
    in a row (each a call of [handleError]) the driver is still [READY] and
    the queue is untouched; the next failure, the (T+1)th, puts the driver in
    [ERROR] and empties the queue. *)
Lemma threshold_escalation_below_255 (w : World) :
  0 <= _SerLCD0_ErrorThreshold w < 255 ->
  _errorCount (self w) = 0 ->
  _state (self w) = READY ->
  let T := Z.to_nat (_SerLCD0_ErrorThreshold w) in
  let w1 := snd (handleError_times T w) in
  let w2 := snd (handleError_times (S T) w) in
  (_state (self w1) = READY /\
   queue_view (self w1) = queue_view (self w) /\
   _errorCount (self w1) = _SerLCD0_ErrorThreshold w) /\
  (_state (self w2) = ERROR /\
   _queueHead (self w2) = 0 /\ _queueTail (self w2) = 0 /\
   pending (self w2) = [] /\
   _errorCount (self w2) = _SerLCD0_ErrorThreshold w + 1).
Proof.
  intros HT Hc Hst. cbv zeta.
  destruct (handleError_times_below (Z.to_nat (_SerLCD0_ErrorThreshold w)) w)
    as (Hc1 & Hs1 & Hq1 & _ & Ht1); [lia | lia | lia |].
  rewrite Hc, Z2Nat.id in Hc1 by lia. rewrite Hst in Hs1.
  split; [repeat split; assumption|].
  rewrite handleError_times_S, handleError_self. cbv zeta.
  rewrite Hc1, Ht1.
  assert (Hu : u8 (0 + _SerLCD0_ErrorThreshold w + 1) = _SerLCD0_ErrorThreshold w + 1)
    by (unfold u8; apply Z.mod_small; lia).
  rewrite Hu.
  assert (Hgt : (_SerLCD0_ErrorThreshold w + 1 >? _SerLCD0_ErrorThreshold w) = true)
    by (rewrite Z.gtb_ltb; apply Z.ltb_lt; lia).
  rewrite Hgt. fields.
  split; [reflexivity|]. split; [reflexivity|]. split; [reflexivity|].
  split; [apply pending_reset; reflexivity|]. reflexivity.
Qed.

(** With the default threshold 1: one failure is absorbed, the second
    escalates. *)
Example threshold_1_escalates_on_second :
  _state (self (snd (handleError_times 1 (one_char_world 1 (fun _ => 0))))) = READY /\
  _state (self (snd (handleError_times 2 (one_char_world 1 (fun _ => 0))))) = ERROR.
Proof.
  pose proof (threshold_escalation_below_255 (one_char_world 1 (fun _ => 0))) as H.
  cbv zeta in H. destruct H as ((H1 & _) & (H2 & _)).
  - vm_compute. split; congruence.
  - reflexivity.
  - reflexivity.
  - split; [exact H1 | exact H2].
Qed.

(** C6 at threshold 255, where the claim asks for an escalation on the 256th
    failure in a row: the driver starts [READY] with counter 0 and one
    command queued; after 255 failures it is still [READY]; on the 256th the
    8-bit counter wraps from 255 to 0, which does not exceed the threshold,
    so the driver is not in [ERROR] and the queue has not been emptied. *)
Theorem C6_threshold_255_never_escalates :
  let w := one_char_world 255 (fun _ => 0) in
  _SerLCD0_ErrorThreshold w = 255 /\
  _errorCount (self w) = 0 /\ _state (self w) = READY /\
  _state (self (snd (handleError_times 255 w))) = READY /\
  _errorCount (self (snd (handleError_times 255 w))) = 255 /\
  _state (self (snd (handleError_times 256 w))) = READY /\
  _state (self (snd (handleError_times 256 w))) <> ERROR /\
  _errorCount (self (snd (handleError_times 256 w))) = 0 /\
  pending (self (snd (handleError_times 256 w))) = pending (self w) /\
  pending (self w) <> [].
Proof. vm_compute. repeat split; congruence. Qed.

(** ** Queue capacity *)

Lemma queue_ok_enqueue s cmd :
  queue_ok s ->
  queue_ok (set_queueTail ((_queueTail s + 1) mod QUEUE_SIZE)
              (set_cmdQueue (store (_cmdQueue s) (_queueTail s) cmd) s)).
Proof.
  intros (Hh & Ht & Hl). unfold queue_ok. fields. rewrite length_store.
  repeat split; try lia; try assumption; apply Z.mod_pos_bound; reflexivity.
Qed.

(** An enqueue on a queue that is not full. *)
Lemma queueCommand_room cmd w :
  queue_ok (self w) ->
  (length (pending (self w)) < 31)%nat ->
  queueCommand cmd w =
    (true,
     set_self (set_queueTail ((_queueTail (self w) + 1) mod QUEUE_SIZE)
                 (set_cmdQueue (store (_cmdQueue (self w)) (_queueTail (self w)) cmd)
                    (self w))) w) /\
  (_queueTail (self w) + 1) mod QUEUE_SIZE <> _queueHead (self w).
Proof.
  intros Hok Hlen. rewrite pending_length in Hlen.
  assert (Hne : (_queueTail (self w) + 1) mod QUEUE_SIZE <> _queueHead (self w)).
  { intros Hfull. apply full_iff_count in Hfull; [|assumption].
    rewrite Hfull in Hlen. unfold QUEUE_SIZE in Hlen. lia. }
  split; [|assumption].
  rewrite queueCommand_spec, u8_mod_QUEUE_SIZE.
  apply Z.eqb_neq in Hne. rewrite Hne. reflexivity.
Qed.

(** An enqueue on a full queue. *)
Lemma queueCommand_full cmd w :
  queue_ok (self w) ->
  length (pending (self w)) = 31%nat ->
  queueCommand cmd w = (false, snd (handleError w)).
Proof.
  intros Hok Hlen. rewrite pending_length in Hlen.
  assert (Hfull : (_queueTail (self w) + 1) mod QUEUE_SIZE = _queueHead (self w)).
  { apply full_iff_count; [assumption|].
    pose proof (getQueueCount_mod _ Hok) as Hc.
    pose proof (Z.mod_pos_bound (_queueTail (self w) - _queueHead (self w)) QUEUE_SIZE).
    unfold QUEUE_SIZE in *. lia. }
  rewrite queueCommand_spec, u8_mod_QUEUE_SIZE, Hfull, Z.eqb_refl. reflexivity.
Qed.

(** As long as there is room every enqueue of a batch succeeds, the commands
    are appended in call order and nothing else changes. *)
Lemma queueCommand_all_room cmds w :
  queue_ok (self w) ->
  (length (pending (self w)) + length cmds <= 31)%nat ->
  let r := queueCommand_all cmds w in
  fst r = repeat true (length cmds) /\
  queue_ok (self (snd r)) /\
  pending (self (snd r)) = pending (self w) ++ cmds /\
  _errorCount (self (snd r)) = _errorCount (self w) /\
  _state (self (snd r)) = _state (self w) /\
  _queueHead (self (snd r)) = _queueHead (self w).
Proof.
  revert w. induction cmds as [|c cmds IH]; intros w Hok Hlen; cbv zeta.
  - cbn [queueCommand_all]. cbv [ret]. cbn [fst snd length repeat].
    rewrite app_nil_r.
    split; [reflexivity|]. split; [assumption|]. repeat split; reflexivity.
  - cbn [length] in Hlen.
    destruct (queueCommand_room c w Hok) as (E & Hne); [lia|].
    cbn [queueCommand_all]. cbv [bind ret]. rewrite E.
    match goal with |- context [queueCommand_all cmds ?W] =>
      specialize (IH W); cbv zeta in IH;
      destruct (queueCommand_all cmds W) as [rs w'] end.
    cbn [fst snd self set_self] in *.
    pose proof (pending_enqueue (self w) c Hok Hne) as Hp.
    destruct IH as (Hr & Hok' & Hp' & Hc' & Hs' & Hh').
    { apply queue_ok_enqueue. assumption. }
    { rewrite Hp, length_app. cbn [length]. lia. }
    rewrite Hr, Hp', Hp, Hc', Hs', Hh', <- app_assoc.
    split; [reflexivity|]. split; [assumption|]. repeat split; reflexivity.
Qed.

(** C7: the queue has 32 slots.  Starting from an empty queue, 31 enqueues
    in a row all succeed (and the queue then holds these 31 commands in
    order); the 32nd returns [false], leaves the array as it was and
    increments the 8-bit error counter by one. *)
Theorem C7_queue_capacity (w : World) (cmds : list LCDCommand) (cmd : LCDCommand) :
  queue_ok (self w) ->
  _queueHead (self w) = _queueTail (self w) ->
  length cmds = Z.to_nat (QUEUE_SIZE - 1) ->
  let r := queueCommand_all cmds w in
  let r' := queueCommand cmd (snd r) in
  fst r = repeat true (Z.to_nat (QUEUE_SIZE - 1)) /\
  pending (self (snd r)) = cmds /\
  _errorCount (self (snd r)) = _errorCount (self w) /\
  fst r' = false /\
  _cmdQueue (self (snd r')) = _cmdQueue (self (snd r)) /\
  _errorCount (self (snd r')) = u8 (_errorCount (self w) + 1).
Proof.
  intros Hok Hempty Hlen. cbv zeta.
  change (Z.to_nat (QUEUE_SIZE - 1)) with 31%nat in *.
  pose proof (pending_empty _ Hok Hempty) as Hp0.
  destruct (queueCommand_all_room cmds w Hok) as (Hr & Hok1 & Hp1 & Hc1 & _ & _).
  { rewrite Hp0, Hlen. cbn [length]. lia. }
  rewrite Hp0 in Hp1. cbn [app] in Hp1. rewrite Hlen in Hr.
  rewrite queueCommand_full by (rewrite ?Hp1; assumption).
  cbn [fst snd]. rewrite handleError_self. cbv zeta. rewrite Hc1.
  repeat split; try assumption.
  - destruct (u8 (_errorCount (self w) + 1) >?
              _SerLCD0_ErrorThreshold (snd (queueCommand_all cmds w))); reflexivity.
  - destruct (u8 (_errorCount (self w) + 1) >?
              _SerLCD0_ErrorThreshold (snd (queueCommand_all cmds w))); reflexivity.
Qed.

Lemma C7_queue_capacity_witness :
  fst (queueCommand (char_cmd 66)
         (snd (queueCommand_all (repeat (char_cmd 65) 31)
                 (fresh_world 1 (fun _ => 0) (fun _ => 0))))) = false.
Proof.
  refine (proj1 (proj2 (proj2 (proj2
    (C7_queue_capacity (fresh_world 1 (fun _ => 0) (fun _ => 0))
       (repeat (char_cmd 65) 31) (char_cmd 66) _ _ _)))));
    vm_compute; repeat split; congruence.
Defined.

(** ** What a tick leaves alone *)

Lemma update_env w :
  let w' := snd (update w) in
  _SerLCD0_Debug w' = _SerLCD0_Debug w /\
  _SerLCD0_ErrorThreshold w' = _SerLCD0_ErrorThreshold w /\
  clock w' = clock w /\ bus_status w' = bus_status w /\ uninit w' = uninit w.
Proof.
  cbv zeta. destruct (_state (self w)) eqn:Hst.
  - destruct (Z.eq_dec (_queueHead (self w)) (_queueTail (self w))) as [He|Hne].
    + rewrite update_ready_empty by assumption. repeat split; reflexivity.
    + rewrite update_ready_nonempty by assumption.
      set (W := set_clock_reads (S (clock_reads w)) w).
      destruct (send_ok (slot (_cmdQueue (self W)) (_queueHead (self W))) W) eqn:Eok.
      * destruct (processNextCommand_sent W) as (wr & sr & E & _);
          [assumption | assumption | assumption |].
        rewrite E. repeat split; reflexivity.
      * destruct (processNextCommand_failed W)
          as (w1 & E & _ & Hd & Ht & Hc & _ & Hb & Hu & _);
          [assumption | assumption | assumption |].
        rewrite E. destruct (handleError_spec w1) as (sr & E1). rewrite E1.
        fields. rewrite Hd, Ht, Hc, Hb, Hu. repeat split; reflexivity.
  - rewrite update_processing by assumption. cbv zeta.
    destruct (ulong (ulong (clock w (clock_reads w)) - _lastActionTime (self w))
                >=? _cmdTime (self w)); repeat split; reflexivity.
  - rewrite update_awaiting by assumption. repeat split; reflexivity.
  - destruct (ulong (ulong (clock w (clock_reads w)) - _lastActionTime (self w))
                >=? _errorResetTime (self w)) eqn:He.
    + destruct (update_error_recover w Hst He) as (sr & E). rewrite E.
      repeat split; reflexivity.
    + rewrite update_error_wait by assumption. repeat split; reflexivity.
Qed.

(** [millis()] is read once by a tick that only looks at the state, twice by
    one that sends, fails or reinitialises. *)
Lemma update_clock_reads w :
  clock_reads (snd (update w)) =
    match _state (self w) with
    | READY =>
        if _queueHead (self w) =? _queueTail (self w)
        then S (clock_reads w) else S (S (clock_reads w))
    | ERROR =>
        if ulong (ulong (clock w (clock_reads w)) - _lastActionTime (self w))
             >=? _errorResetTime (self w)
        then S (S (clock_reads w)) else S (clock_reads w)
    | _ => S (clock_reads w)
    end.
Proof.
  destruct (_state (self w)) eqn:Hst.
  - destruct (Z.eqb_spec (_queueHead (self w)) (_queueTail (self w))) as [He|Hne].
    + rewrite update_ready_empty by assumption. reflexivity.
    + rewrite update_ready_nonempty by assumption.
      set (W := set_clock_reads (S (clock_reads w)) w).
      destruct (send_ok (slot (_cmdQueue (self W)) (_queueHead (self W))) W) eqn:Eok.
      * destruct (processNextCommand_sent W) as (wr & sr & E & _);
          [assumption | assumption | assumption |].
        rewrite E. reflexivity.
      * destruct (processNextCommand_failed W)
          as (w1 & E & _ & _ & _ & _ & Hr & _);
          [assumption | assumption | assumption |].
        rewrite E. destruct (handleError_spec w1) as (sr & E1). rewrite E1.
        fields. rewrite Hr. reflexivity.
  - rewrite update_processing by assumption. cbv zeta.
    destruct (ulong (ulong (clock w (clock_reads w)) - _lastActionTime (self w))
                >=? _cmdTime (self w)); reflexivity.
  - rewrite update_awaiting by assumption. reflexivity.
  - destruct (ulong (ulong (clock w (clock_reads w)) - _lastActionTime (self w))
                >=? _errorResetTime (self w)) eqn:He.
    + destruct (update_error_recover w Hst He) as (sr & E). rewrite E. reflexivity.
    + rewrite update_error_wait by assumption. reflexivity.
Qed.

(** Enqueues through the convenience calls when there is room. *)
Lemma clear_room w :
  queue_ok (self w) -> (length (pending (self w)) < 31)%nat ->
  clear w =
    (tt, set_self (set_queueTail ((_queueTail (self w) + 1) mod QUEUE_SIZE)
                     (set_cmdQueue (store (_cmdQueue (self w)) (_queueTail (self w))
                                      (clear_cmd (uninit w))) (self w))) w).
Proof.
  intros Hok Hlen. rewrite clear_spec.
  destruct (queueCommand_room (clear_cmd (uninit w)) w Hok Hlen) as (E & _).
  rewrite E. reflexivity.
Qed.

Lemma setBacklight_room r g b w :
  queue_ok (self w) -> (length (pending (self w)) < 31)%nat ->
  exists sr,
    setBacklight r g b w =
      (tt, set_serial sr
             (set_self (set_queueTail ((_queueTail (self w) + 1) mod QUEUE_SIZE)
                          (set_cmdQueue (store (_cmdQueue (self w)) (_queueTail (self w))
                                           (backlight_cmd r g b)) (self w))) w)).
Proof.
  intros Hok Hlen.
  destruct w as [s dbg thr ck cr bs be wr sr un].
  unfold setBacklight, backlight_cmd.
  cbv [bind ret local_cmd static when Serial_out].
  destruct dbg; fields;
    match goal with |- context [let (_, _) := queueCommand ?c ?W in _] =>
      destruct (queueCommand_room c W) as (E & _); [assumption | assumption |];
      rewrite E end;
    fields; eexists; reflexivity.
Qed.

(** ** The head of the queue *)

Lemma head_of_pending s c rest :
  queue_ok s -> pending s = c :: rest ->
  _queueHead s <> _queueTail s /\
  slot (_cmdQueue s) (_queueHead s) = c /\
  pending (set_queueHead (u8 ((_queueHead s + 1) mod QUEUE_SIZE)) s) = rest /\
  queue_ok (set_queueHead (u8 ((_queueHead s + 1) mod QUEUE_SIZE)) s).
Proof.
  intros Hok Hp.
  assert (Hne : _queueHead s <> _queueTail s).
  { intros He. rewrite (pending_empty s Hok He) in Hp. discriminate. }
  rewrite u8_mod_QUEUE_SIZE.
  rewrite (pending_dequeue s Hok Hne) in Hp. injection Hp as Hc Hr.
  repeat split; try assumption; try apply Hok.
  all: fields; try (apply Z.mod_pos_bound; reflexivity).
  all: pose proof (Z.mod_pos_bound (_queueHead s + 1) QUEUE_SIZE eq_refl); lia.
Qed.

(** ** Waiting out the settle time *)

Lemma update_waiting w :
  _state (self w) = PROCESSING ->
  ulong (ulong (clock w (clock_reads w)) - _lastActionTime (self w))
    < _cmdTime (self w) ->
  update w = (false, set_clock_reads (S (clock_reads w)) w).
Proof.
  intros Hst Hlt. rewrite update_processing by assumption. cbv zeta.
  assert (E : (ulong (ulong (clock w (clock_reads w)) - _lastActionTime (self w))
                 >=? _cmdTime (self w)) = false)
    by (rewrite Z.geb_leb; apply Z.leb_gt; assumption).
  rewrite E. reflexivity.
Qed.

Lemma run_waiting n w :
  _state (self w) = PROCESSING ->
  (forall j, (j < n)%nat ->
     ulong (ulong (clock w (clock_reads w + j)%nat) - _lastActionTime (self w))
       < _cmdTime (self w)) ->
  run (repeat call_update n) w = set_clock_reads (clock_reads w + n)%nat w.
Proof.
  revert w. induction n as [|n IH]; intros w Hst Hearly.
  - cbn [repeat run]. rewrite Nat.add_0_r. destruct w. reflexivity.
  - cbn [repeat run do_call]. rewrite update_waiting; [|assumption|].
    + cbn [snd]. rewrite IH.
      * cbv [set_clock_reads]. fields. f_equal. lia.
      * exact Hst.
      * intros j Hj. fields.
        replace (S (clock_reads w) + j)%nat with (clock_reads w + S j)%nat by lia.
        apply Hearly. lia.
    + specialize (Hearly 0%nat). rewrite Nat.add_0_r in Hearly. apply Hearly. lia.
Qed.

(** ** The two-command scenario *)

(** C4 does not hold as stated.  After [clear(); setBacklight(10,20,30);] on
    a bus that accepts everything, the first tick (time 0) sends the clear
    bytes and the second (2 ms, before the 5 ms settle time) reports
    not-ready; but the third tick, at 10 ms, only returns the driver to
    [READY]: it writes nothing, and the backlight command is still queued. *)
Lemma C4_counterexample :
  let w1 := snd (update scenario_world) in
  let w2 := snd (update w1) in
  let w3 := snd (update w2) in
  fst (update scenario_world) = true /\
  wire_bytes (wire w1) = [254; 0x01] /\
  _state (self w1) = PROCESSING /\
  fst (update w1) = false /\
  (_cmdTime (self w2) <=?
     ulong (ulong (clock w2 (clock_reads w2)) - _lastActionTime (self w2))) = true /\
  wire_bytes (wire w3) = [254; 0x01] /\
  pending (self w3) = [backlight_cmd 10 20 30] /\
  pending (self w3) <> [].
Proof. vm_compute. repeat split; congruence. Qed.

(** C4, amended: starting [READY] with an empty queue, after [clear()] then
    [setBacklight(10,20,30)] on a bus that accepts every transaction: the
    first tick sends the clear bytes (254, 0x01) and enters [PROCESSING];
    every tick before the settle time [_cmdTime] has elapsed reports
    not-ready and sends nothing; the first tick after it has elapsed only
    returns the driver to [READY] (it reports ready, sends nothing, the
    backlight command stays queued); the tick after that one sends the
    backlight bytes (0x7C, 0x2B, 10, 20, 30) and leaves the queue empty. *)
Theorem C4_two_command_scenario (w : World) (n : nat) :
  _state (self w) = READY ->
  _queueHead (self w) = _queueTail (self w) ->
  queue_ok (self w) ->
  (forall k, bus_status w k = 0) ->
  let t0 := ulong (clock w (S (clock_reads w))) in
  (forall j, (j < n)%nat ->
     ulong (ulong (clock w (S (S (clock_reads w)) + j)%nat) - t0) < _cmdTime (self w)) ->
  _cmdTime (self w) <= ulong (ulong (clock w (S (S (clock_reads w)) + n)%nat) - t0) ->
  let w0 := snd (setBacklight 10 20 30 (snd (clear w))) in
  let w1 := snd (update w0) in
  let wn := run (repeat call_update n) w1 in
  let w3 := snd (update wn) in
  let w4 := snd (update w3) in
  (fst (update w0) = true /\ _state (self w1) = PROCESSING /\
   wire_bytes (wire w1) = wire_bytes (wire w) ++ [254; 0x01]) /\
  ((forall j, (j < n)%nat -> fst (update (run (repeat call_update j) w1)) = false) /\
   _state (self wn) = PROCESSING /\ wire wn = wire w1) /\
  (fst (update wn) = true /\ _state (self w3) = READY /\ wire w3 = wire w1 /\
   pending (self w3) = [backlight_cmd 10 20 30]) /\
  (fst (update w3) = true /\
   wire_bytes (wire w4) = wire_bytes (wire w1) ++ [0x7C; 0x2B; 10; 20; 30] /\
   pending (self w4) = []).
Proof.
  intros Hst Hempty Hok Hbus t0 Hearly Hlate. cbv zeta.
  (* the two enqueues *)
  pose proof (pending_empty _ Hok Hempty) as Hp.
  destruct (queueCommand_room (clear_cmd (uninit w)) w Hok) as (_ & HneA);
    [rewrite Hp; cbn [length]; lia|].
  rewrite (clear_room w Hok) by (rewrite Hp; cbn [length]; lia). cbn [snd].
  match goal with |- context [setBacklight 10 20 30 ?W] => set (Wa := W) end.
  assert (HokA : queue_ok (self Wa)) by (apply queue_ok_enqueue; exact Hok).
  assert (HpA : pending (self Wa) = [clear_cmd (uninit w)]).
  { unfold Wa. cbn [self set_self]. rewrite pending_enqueue by assumption.
    rewrite Hp. reflexivity. }
  destruct (queueCommand_room (backlight_cmd 10 20 30) Wa HokA) as (_ & Hne0);
    [rewrite HpA; cbn [length]; lia|].
  destruct (setBacklight_room 10 20 30 Wa HokA) as (sr & E0);
    [rewrite HpA; cbn [length]; lia|].
  rewrite E0. cbn [snd]. clear E0.
  match goal with |- context [update (set_serial sr ?W)] =>
    set (W0 := set_serial sr W) end.
  assert (Hok0 : queue_ok (self W0)) by (apply queue_ok_enqueue; exact HokA).
  assert (Hp0 : pending (self W0) =
                [clear_cmd (uninit w); backlight_cmd 10 20 30]).
  { unfold W0. cbn [self set_self set_serial].
    rewrite pending_enqueue by assumption. rewrite HpA. reflexivity. }
  assert (Hst0 : _state (self W0) = READY) by exact Hst.
  (* first tick *)
  destruct (head_of_pending _ _ _ Hok0 Hp0) as (Hne & Hslot & Hrest & Hok1).
  destruct (update_dispatch W0 Hst0 Hne) as (Hr1 & Hw1 & Hs1). cbv zeta in Hs1.
  rewrite Hslot in Hr1, Hw1, Hs1.
  assert (Hsend1 : send_ok (clear_cmd (uninit w)) W0 = true).
  { unfold send_ok, clear_cmd. cbn [type]. apply Z.eqb_eq. apply Hbus. }
  rewrite Hsend1 in Hr1, Hs1.
  pose proof (update_env W0) as (_ & _ & Hck1 & Hbs1 & _).
  pose proof (update_clock_reads W0) as Hcr1. rewrite Hst0 in Hcr1.
  apply Z.eqb_neq in Hne. rewrite Hne in Hcr1.
  set (W1 := snd (update W0)) in *.
  assert (Hst1 : _state (self W1) = PROCESSING) by (rewrite Hs1; reflexivity).
  assert (Hp1 : pending (self W1) = [backlight_cmd 10 20 30])
    by (rewrite Hs1; exact Hrest).
  assert (Hok1' : queue_ok (self W1)) by (rewrite Hs1; exact Hok1).
  assert (Hlast1 : _lastActionTime (self W1) = t0) by (rewrite Hs1; reflexivity).
  assert (Hcmd1 : _cmdTime (self W1) = _cmdTime (self w)) by (rewrite Hs1; reflexivity).
  change (clock W0) with (clock w) in Hck1.
  change (clock_reads W0) with (clock_reads w) in Hcr1.
  change (bus_status W0) with (bus_status w) in Hbs1.
  change (wire W0) with (wire w) in Hw1.
  (* the first tick *)
  split; [split; [exact Hr1 | split; [exact Hst1 | exact Hw1]]|].
  (* ticks before the settle time *)
  assert (Hwait : forall j, (j <= n)%nat ->
            run (repeat call_update j) W1 =
            set_clock_reads (clock_reads W1 + j)%nat W1).
  { intros j Hj. apply run_waiting; [exact Hst1|]. intros i Hi.
    rewrite Hck1, Hcr1, Hlast1, Hcmd1. apply Hearly. lia. }
  split.
  { split; [|rewrite Hwait by lia; split; [exact Hst1 | reflexivity]].
    intros j Hj. rewrite Hwait by lia.
    rewrite update_waiting; [reflexivity | exact Hst1 |].
    cbn [clock clock_reads self set_clock_reads].
    rewrite Hck1, Hcr1, Hlast1, Hcmd1. apply Hearly. lia. }
  rewrite Hwait by lia.
  set (Wn := set_clock_reads (clock_reads W1 + n)%nat W1).
  (* the tick after the settle time *)
  assert (Hstn : _state (self Wn) = PROCESSING) by exact Hst1.
  rewrite (update_processing Wn Hstn). cbv zeta.
  assert (Hel : (ulong (ulong (clock Wn (clock_reads Wn)) - _lastActionTime (self Wn))
                   >=? _cmdTime (self Wn)) = true).
  { unfold Wn. cbn [clock clock_reads self set_clock_reads].
    rewrite Hck1, Hcr1, Hlast1, Hcmd1. rewrite Z.geb_leb. apply Z.leb_le.
    exact Hlate. }
  rewrite Hel. cbn [fst snd].
  set (W3 := set_clock_reads (S (clock_reads Wn)) (with_state READY Wn)).
  assert (Hst3 : _state (self W3) = READY) by reflexivity.
  assert (Hp3 : pending (self W3) = [backlight_cmd 10 20 30]) by exact Hp1.
  assert (Hok3 : queue_ok (self W3)) by exact Hok1'.
  split; [split; [reflexivity | split; [exact Hst3 | split; [reflexivity | exact Hp3]]]|].
  (* the next tick *)
  destruct (head_of_pending _ _ _ Hok3 Hp3) as (Hne3 & Hslot3 & Hrest3 & _).
  destruct (update_dispatch W3 Hst3 Hne3) as (Hr4 & Hw4 & Hs4). cbv zeta in Hs4.
  rewrite Hslot3 in Hr4, Hw4, Hs4.
  assert (Hsend4 : send_ok (backlight_cmd 10 20 30) W3 = true).
  { unfold send_ok, backlight_cmd. cbn [type]. apply Z.eqb_eq.
    change (bus_status W3) with (bus_status W1). rewrite Hbs1. apply Hbus. }
  rewrite Hsend4 in Hr4, Hs4.
  split; [exact Hr4|]. split; [exact Hw4|].
  rewrite Hs4. exact Hrest3.
Qed.

Lemma C4_two_command_scenario_witness :
  pending
    (self (snd (update (snd (update
       (run (repeat call_update 1) (snd (update scenario_world)))))))) = [].
Proof.
  refine (proj2 (proj2 (proj2 (proj2 (proj2
    (C4_two_command_scenario (fresh_world 1 scenario_clock (fun _ => 0)) 1
       _ _ _ _ _ _)))))).
  - reflexivity.
  - reflexivity.
  - vm_compute. repeat split; congruence.
  - intros k. reflexivity.
  - intros j Hj. destruct j as [|j]; [vm_compute; reflexivity | lia].
  - vm_compute. congruence.
Defined.

(** ** Steps of a run *)

Lemma pending_le s : queue_ok s -> (length (pending s) <= 31)%nat.
Proof.
  intros Hok. rewrite pending_length, getQueueCount_mod by assumption.
  pose proof (Z.mod_pos_bound (_queueTail s - _queueHead s) QUEUE_SIZE eq_refl).
  unfold QUEUE_SIZE in *. lia.
Qed.

Lemma pending_nil_empty s :
  queue_ok s -> pending s = [] -> _queueHead s = _queueTail s.
Proof.
  intros Hok Hp. destruct (Z.eq_dec (_queueHead s) (_queueTail s)) as [|Hne];
    [assumption|].
  rewrite (pending_dequeue s Hok Hne) in Hp. discriminate.
Qed.

(** What one [queueCommand] does to the queue, the bus log and the state. *)
Lemma queueCommand_cases cmd w :
  queue_ok (self w) ->
  let r := queueCommand cmd w in
  wire (snd r) = wire w /\
  ((fst r = true /\
    pending (self (snd r)) = pending (self w) ++ [cmd] /\
    queue_ok (self (snd r)) /\
    _state (self (snd r)) = _state (self w)) \/
   (fst r = false /\
    (_state (self (snd r)) = ERROR \/
     (_state (self (snd r)) = _state (self w) /\
      pending (self (snd r)) = pending (self w) /\
      queue_ok (self (snd r)))))).
Proof.
  intros Hok. cbv zeta.
  pose proof (pending_le _ Hok) as Hle.
  destruct (Nat.eq_dec (length (pending (self w))) 31%nat) as [Hfull|Hroom].
  - rewrite queueCommand_full by assumption. cbn [fst snd].
    destruct (handleError_spec w) as (sr & E). rewrite E. cbn [snd wire self].
    split; [reflexivity|]. right. split; [reflexivity|].
    destruct (u8 (_errorCount (self w) + 1) >? _SerLCD0_ErrorThreshold w).
    + left. reflexivity.
    + right. split; [reflexivity|]. split; [reflexivity|]. exact Hok.
  - destruct (queueCommand_room cmd w Hok) as (E & Hne); [lia|].
    rewrite E. cbn [fst snd]. split; [reflexivity|]. left.
    split; [reflexivity|]. cbn [self set_self].
    split; [apply pending_enqueue; assumption|].
    split; [apply queue_ok_enqueue; assumption | reflexivity].
Qed.

(** What one tick does when it does not start in [ERROR]: it sends the head
    command, or fails to, or leaves queue and bus alone. *)
Lemma update_cases w :
  queue_ok (self w) -> _state (self w) <> ERROR ->
  let w' := snd (update w) in
  (exists c rest,
     pending (self w) = c :: rest /\
     wire_bytes (wire w') = wire_bytes (wire w) ++ encode c /\
     ((pending (self w') = rest /\ queue_ok (self w') /\
       _state (self w') = PROCESSING) \/
      _state (self w') = ERROR \/
      (pending (self w') = c :: rest /\ queue_ok (self w') /\
       _state (self w') = READY))) \/
  (wire w' = wire w /\ pending (self w') = pending (self w) /\
   queue_ok (self w') /\ _state (self w') <> ERROR).
Proof.
  intros Hok Hst. cbv zeta.
  destruct (State_eqb (_state (self w)) READY) eqn:Hrdy;
    [destruct (pending (self w)) as [|c rest] eqn:Hp|].
  - right. pose proof (pending_nil_empty _ Hok Hp) as He.
    destruct (update_no_dispatch w (or_intror He)) as (Hw & _ & Hs).
    cbv zeta in Hs. rewrite Hs.
    destruct (_state (self w)) eqn:E; try discriminate.
    split; [assumption|]. split; [assumption|]. split; [assumption|].
    rewrite E. discriminate.
  - left. exists c, rest. split; [reflexivity|].
    assert (Hready : _state (self w) = READY)
      by (destruct (_state (self w)); try discriminate; reflexivity).
    destruct (head_of_pending _ _ _ Hok Hp) as (Hne & Hslot & Hrest & Hok').
    destruct (update_dispatch w Hready Hne) as (_ & Hw & Hs). cbv zeta in Hs.
    rewrite Hslot in Hw, Hs. split; [exact Hw|]. rewrite Hs.
    destruct (send_ok c w).
    + left. split; [exact Hrest|]. split; [exact Hok' | reflexivity].
    + destruct (u8 (_errorCount (self w) + 1) >? _SerLCD0_ErrorThreshold w).
      * right. left. reflexivity.
      * right. right. split; [exact Hp|]. split; [exact Hok | exact Hready].
  - right.
    assert (Hnr : _state (self w) <> READY)
      by (intros E; rewrite E in Hrdy; discriminate).
    destruct (update_no_dispatch w (or_introl Hnr)) as (Hw & _ & Hs).
    cbv zeta in Hs. rewrite Hs. split; [assumption|].
    destruct (_state (self w)) eqn:E; try congruence.
    + destruct (ulong (ulong (clock w (clock_reads w)) - _lastActionTime (self w))
                  >=? _cmdTime (self w)).
      * split; [reflexivity|]. split; [exact Hok | discriminate].
      * split; [reflexivity|]. split; [exact Hok | rewrite E; discriminate].
    + split; [reflexivity|]. split; [exact Hok | rewrite E; discriminate].
Qed.

(** ** FIFO dispatch *)

(** C2: in a run of [queueCommand] calls and ticks during which the driver
    never enters [ERROR], the commands handed to the bus by the successive
    dispatching ticks are, in order, the commands that were waiting followed
    by the successfully enqueued ones, each taken from the head of the queue
    (a command whose transaction failed is handed over again before any
    later one); the bytes written on the bus are their encodings in that
    order, and what has not been sent is what is still queued. *)
Theorem C2_fifo_dispatch (cs : list Call) (w : World) :
  queue_ok (self w) ->
  no_escalation cs w = true ->
  exists handed : list LCDCommand,
    fifo_dispatch (pending (self w) ++ enqueued cs w) handed
      (pending (self (run cs w))) /\
    wire_bytes (wire (run cs w)) =
      wire_bytes (wire w) ++ concat (map encode handed).
Proof.
  revert w. induction cs as [|c cs IH]; intros w Hok Hne.
  - exists []. cbn [enqueued run map concat]. rewrite !app_nil_r.
    split; [constructor | reflexivity].
  - cbn [no_escalation] in Hne. apply andb_true_iff in Hne as (Hst & Hne).
    assert (Hst' : _state (self w) <> ERROR)
      by (intros E; rewrite E in Hst; discriminate).
    assert (Hnext : _state (self (snd (do_call c w))) <> ERROR).
    { intros E. destruct cs; cbn [no_escalation] in Hne; rewrite E in Hne;
        discriminate. }
    cbn [run enqueued]. destruct c as [cmd|]; cbn [do_call] in *.
    + destruct (queueCommand_cases cmd w Hok) as (Hw & [(Hr & Hp & Hok1 & _) | (Hr & Hcase)]);
        cbv zeta in *; rewrite Hr.
      * destruct (IH _ Hok1 Hne) as (a & Hf & Hb). exists a.
        rewrite Hp, <- app_assoc in Hf. rewrite Hw in Hb.
        split; assumption.
      * destruct Hcase as [E | (_ & Hp & Hok1)]; [contradiction|].
        destruct (IH _ Hok1 Hne) as (a & Hf & Hb). exists a.
        rewrite Hp in Hf. rewrite Hw in Hb. split; assumption.
    + destruct (update_cases w Hok Hst') as [(c0 & rest & Hp & Hb0 & Hcase) | (Hw & Hp & Hok1 & _)];
        cbv zeta in *.
      * destruct Hcase as [(Hp1 & Hok1 & _) | [E | (Hp1 & Hok1 & _)]];
          [| contradiction |];
          destruct (IH _ Hok1 Hne) as (a & Hf & Hb); exists (c0 :: a);
          rewrite Hp1 in Hf; rewrite Hp; cbn [app map concat];
          (split; [| rewrite Hb, Hb0, <- app_assoc; reflexivity]).
        -- apply fifo_sent. exact Hf.
        -- apply fifo_retry. exact Hf.
      * destruct (IH _ Hok1 Hne) as (a & Hf & Hb). exists a.
        rewrite Hp in Hf. rewrite Hw in Hb. split; assumption.
Qed.

Lemma C2_fifo_dispatch_witness :
  exists handed : list LCDCommand,
    fifo_dispatch (pending (self fifo_world) ++ enqueued fifo_calls fifo_world)
      handed (pending (self (run fifo_calls fifo_world))) /\
    wire_bytes (wire (run fifo_calls fifo_world)) =
      wire_bytes (wire fifo_world) ++ concat (map encode handed).
Proof.
  apply (C2_fifo_dispatch fifo_calls fifo_world).
  - vm_compute. repeat split; congruence.
  - vm_compute. reflexivity.
Defined.

(** On that run 'A' is written twice (rejected, then accepted) and 'B' once,
    after it. *)
Example fifo_calls_bytes :
  enqueued fifo_calls fifo_world = [char_cmd 65; char_cmd 66] /\
  wire_bytes (wire (run fifo_calls fifo_world)) = [65; 65; 66] /\
  pending (self (run fifo_calls fifo_world)) = [].
Proof. vm_compute. repeat split; reflexivity. Qed.

(** ** The error counter *)

Lemma queueCommand_errorCount cmd w :
  _errorCount (self (snd (queueCommand cmd w))) =
    if fst (queueCommand cmd w) then _errorCount (self w)
    else u8 (_errorCount (self w) + 1).
Proof.
  rewrite queueCommand_result, queueCommand_self, handleError_self. cbv zeta.
  destruct (u8 ((_queueTail (self w) + 1) mod QUEUE_SIZE) =? _queueHead (self w));
    cbn [negb]; [|reflexivity].
  destruct (u8 (_errorCount (self w) + 1) >? _SerLCD0_ErrorThreshold w);
    reflexivity.
Qed.

Lemma processNextCommand_errorCount w :
  _errorCount (self (snd (processNextCommand w))) =
    if fst (processNextCommand w) then _errorCount (self w)
    else if State_eqb (_state (self w)) READY
            && negb (_queueHead (self w) =? _queueTail (self w))
         then u8 (_errorCount (self w) + 1)
         else _errorCount (self w).
Proof.
  destruct (State_eqb (_state (self w)) READY) eqn:Hrdy;
    [destruct (Z.eqb_spec (_queueHead (self w)) (_queueTail (self w))) as [He|Hne]|];
    cbn [andb negb].
  - rewrite processNextCommand_idle by (right; assumption). reflexivity.
  - assert (Hst : _state (self w) = READY)
      by (destruct (_state (self w)); try discriminate; reflexivity).
    destruct (send_ok (slot (_cmdQueue (self w)) (_queueHead (self w))) w) eqn:Eok.
    + destruct (processNextCommand_sent w Hst Hne Eok) as (wr & sr & E & _).
      rewrite E. reflexivity.
    + destruct (processNextCommand_failed w Hst Hne Eok) as (w1 & E & Hs1 & _).
      rewrite E. cbn [fst snd]. rewrite handleError_self. cbv zeta. rewrite Hs1.
      destruct (u8 (_errorCount (self w) + 1) >? _SerLCD0_ErrorThreshold w1);
        reflexivity.
  - rewrite processNextCommand_idle; [reflexivity|]. left. intros E.
    rewrite E in Hrdy. discriminate.
Qed.

Lemma update_errorCount w :
  _errorCount (self (snd (update w))) =
    match _state (self w) with
    | ERROR =>
        if ulong (ulong (clock w (clock_reads w)) - _lastActionTime (self w))
             >=? _errorResetTime (self w)
        then 0 else _errorCount (self w)
    | _ =>
        if call_fails call_update w then u8 (_errorCount (self w) + 1)
        else _errorCount (self w)
    end.
Proof.
  unfold call_fails.
  destruct (State_eqb (_state (self w)) READY) eqn:Hrdy;
    [destruct (Z.eqb_spec (_queueHead (self w)) (_queueTail (self w))) as [He|Hne]|].
  - destruct (update_no_dispatch w (or_intror He)) as (_ & _ & Hs).
    cbv zeta in Hs. rewrite Hs.
    destruct (_state (self w)); try discriminate. reflexivity.
  - assert (Hst : _state (self w) = READY)
      by (destruct (_state (self w)); try discriminate; reflexivity).
    destruct (update_dispatch w Hst Hne) as (_ & _ & Hs). cbv zeta in Hs.
    rewrite Hs, Hst. cbn [andb negb].
    destruct (send_ok (slot (_cmdQueue (self w)) (_queueHead (self w))) w);
      cbn [negb]; [reflexivity|].
    destruct (u8 (_errorCount (self w) + 1) >? _SerLCD0_ErrorThreshold w);
      reflexivity.
  - assert (Hnr : _state (self w) <> READY)
      by (intros E; rewrite E in Hrdy; discriminate).
    destruct (update_no_dispatch w (or_introl Hnr)) as (_ & _ & Hs).
    cbv zeta in Hs. rewrite Hs. cbn [andb].
    destruct (_state (self w)); try discriminate; try reflexivity.
    + destruct (ulong (ulong (clock w (clock_reads w)) - _lastActionTime (self w))
                  >=? _cmdTime (self w)); reflexivity.
    + destruct (ulong (ulong (clock w (clock_reads w)) - _lastActionTime (self w))
                  >=? _errorResetTime (self w)); reflexivity.
Qed.

Lemma do_call_errorCount c w :
  (match c with
   | call_update => negb (State_eqb (_state (self w)) ERROR)
   | call_queueCommand _ => true
   end) = true ->
  _errorCount (self (snd (do_call c w))) =
    if call_fails c w then u8 (_errorCount (self w) + 1) else _errorCount (self w).
Proof.
  destruct c as [cmd|]; cbn [do_call]; intros H.
  - rewrite queueCommand_errorCount. unfold call_fails.
    destruct (fst (queueCommand cmd w)); reflexivity.
  - rewrite update_errorCount.
    destruct (_state (self w)); try discriminate; reflexivity.
Qed.

(** Without a recovery in between, the counter is the number of failures so
    far, as an 8-bit number. *)
Lemma run_errorCount cs w :
  0 <= _errorCount (self w) < 256 ->
  no_recovery cs w = true ->
  _errorCount (self (run cs w)) = u8 (_errorCount (self w) + failures cs w).
Proof.
  revert w. induction cs as [|c cs IH]; intros w Hc Hnr.
  - cbn [run failures]. rewrite Z.add_0_r. unfold u8.
    symmetry. apply Z.mod_small. lia.
  - cbn [no_recovery] in Hnr. apply andb_true_iff in Hnr as (Hc0 & Hnr).
    cbn [run failures].
    pose proof (do_call_errorCount c w Hc0) as He.
    assert (Hc1 : 0 <= _errorCount (self (snd (do_call c w))) < 256).
    { rewrite He. destruct (call_fails c w); [|assumption].
      unfold u8. apply Z.mod_pos_bound. reflexivity. }
    rewrite (IH _ Hc1 Hnr), He.
    destruct (call_fails c w).
    + unfold u8. rewrite Z.add_mod_idemp_l by lia. f_equal. lia.
    + f_equal.
Qed.

(** C10: a successful transmission never resets or decreases the error
    counter.  [processNextCommand] leaves it unchanged when the send
    succeeds and increments it (as a [uint8_t], through [handleError]) when
    it tried and failed; a tick changes it only by that increment, or to 0
    in the recovery branch of [ERROR]; the constructor and [reinitialize] set
    it to 0.  Hence over any run of enqueues and ticks without a recovery the
    counter is its initial value plus the number of failed calls, however
    many successful sends lie between the failures. *)
Theorem C10_error_counter (w : World) (cs : list Call)
    (storage : list LCDCommand) (last addr : Z) :
  _errorCount (self (snd (processNextCommand w))) =
    (if fst (processNextCommand w) then _errorCount (self w)
     else if State_eqb (_state (self w)) READY
             && negb (_queueHead (self w) =? _queueTail (self w))
          then u8 (_errorCount (self w) + 1)
          else _errorCount (self w)) /\
  _errorCount (self (snd (update w))) =
    match _state (self w) with
    | ERROR =>
        if ulong (ulong (clock w (clock_reads w)) - _lastActionTime (self w))
             >=? _errorResetTime (self w)
        then 0 else _errorCount (self w)
    | _ =>
        if call_fails call_update w then u8 (_errorCount (self w) + 1)
        else _errorCount (self w)
    end /\
  _errorCount (self (snd (handleError w))) = u8 (_errorCount (self w) + 1) /\
  _errorCount (SerLCD0_new storage last addr) = 0 /\
  _errorCount (self (snd (reinitialize w))) = 0 /\
  (0 <= _errorCount (self w) < 256 ->
   no_recovery cs w = true ->
   _errorCount (self (run cs w)) = u8 (_errorCount (self w) + failures cs w)).
Proof.
  split; [apply processNextCommand_errorCount|].
  split; [apply update_errorCount|].
  split.
  { rewrite handleError_self. cbv zeta.
    destruct (u8 (_errorCount (self w) + 1) >? _SerLCD0_ErrorThreshold w);
      reflexivity. }
  split; [reflexivity|].
  split.
  { destruct (reinitialize_spec w) as (sr & E). rewrite E. reflexivity. }
  apply run_errorCount.
Qed.

Lemma C10_error_counter_witness :
  _errorCount (self (run accumulate_calls accumulate_world)) =
    u8 (_errorCount (self accumulate_world)
        + failures accumulate_calls accumulate_world).
Proof.
  refine (proj2 (proj2 (proj2 (proj2 (proj2
    (C10_error_counter accumulate_world accumulate_calls [] 0 0))))) _ _).
  - vm_compute. split; congruence.
  - vm_compute. reflexivity.
Defined.

(** On that run two commands are sent successfully between the two failures;
    the second failure still takes the counter to 2, above the threshold 1,
    and the driver escalates. *)
Example accumulate_calls_escalate :
  failures accumulate_calls accumulate_world = 2 /\
  wire_bytes (wire (run accumulate_calls accumulate_world)) = [65; 65; 66; 67] /\
  _errorCount (self (run accumulate_calls accumulate_world)) = 2 /\
  _state (self (run accumulate_calls accumulate_world)) = ERROR.
Proof. vm_compute. repeat split; reflexivity. Qed.

(** * Further properties of the driver *)

(** ** The bus log *)

Lemma sendCommand_log cmd w :
  wire (snd (sendCommand cmd w)) =
    wire w ++ transaction (_i2cAddr (self w)) cmd (bus_status w (bus_ends w)).
Proof.
  destruct w as [s dbg thr ck cr bs be wr sr un]. destruct s.
  destruct cmd as [ty d0 d1 d2 len].
  unfold sendCommand, transaction, encode. unfold_monad. fields_cbv.
  destruct ty; fields_cbv;
    repeat match goal with |- context [if ?c then _ else _] => destruct c end;
    fields_cbv; cbn [map app]; rewrite <- ?app_assoc; reflexivity.
Qed.

Lemma processNextCommand_log w :
  _state (self w) = READY -> _queueHead (self w) <> _queueTail (self w) ->
  wire (snd (processNextCommand w)) =
    wire (snd (sendCommand (slot (_cmdQueue (self w)) (_queueHead (self w))) w)).
Proof.
  intros Hst Hne. unfold processNextCommand. cbv [bind ret this assign millis].
  rewrite Hst. apply Z.eqb_neq in Hne. rewrite Hne. cbn [State_eqb negb orb].
  destruct (sendCommand (slot (_cmdQueue (self w)) (_queueHead (self w))) w)
    as [ok w1].
  destruct ok.
  - reflexivity.
  - destruct (handleError_spec w1) as (sr & E). rewrite E. reflexivity.
Qed.

(** A tick appends to the bus log exactly one transaction, that of the head
    command at the driver's address, when it starts [READY] with a non-empty
    queue, and nothing at all otherwise. *)
Theorem update_log (w : World) :
  wire (snd (update w)) =
    wire w ++
    if State_eqb (_state (self w)) READY
       && negb (_queueHead (self w) =? _queueTail (self w))
    then transaction (_i2cAddr (self w))
           (slot (_cmdQueue (self w)) (_queueHead (self w)))
           (bus_status w (bus_ends w))
    else [].
Proof.
  destruct (State_eqb (_state (self w)) READY) eqn:Hrdy;
    [destruct (Z.eqb_spec (_queueHead (self w)) (_queueTail (self w))) as [He|Hne]|];
    cbn [andb negb].
  - rewrite app_nil_r. apply update_no_dispatch. right. assumption.
  - assert (Hst : _state (self w) = READY)
      by (destruct (_state (self w)); try discriminate; reflexivity).
    rewrite update_ready_nonempty by assumption.
    rewrite processNextCommand_log by assumption.
    rewrite sendCommand_log. reflexivity.
  - rewrite app_nil_r. apply update_no_dispatch. left. intros E.
    rewrite E in Hrdy. discriminate.
Qed.

Lemma begun_app l1 l2 : begun (l1 ++ l2) = (begun l1 + begun l2)%nat.
Proof.
  induction l1 as [|e l1 IH]; [reflexivity|].
  destruct e; cbn [app begun]; rewrite IH; reflexivity.
Qed.

Lemma begun_transaction addr cmd rc : begun (transaction addr cmd rc) = 1%nat.
Proof.
  unfold transaction. cbn [begun]. f_equal. rewrite begun_app.
  assert (H : forall l, begun (map write_byte l) = 0%nat)
    by (induction l; [reflexivity | assumption]).
  rewrite H. destruct (type cmd); reflexivity.
Qed.

(** Over a run of enqueues and ticks the driver begins at most one bus
    transaction per tick, and none for an enqueue. *)
Theorem run_transactions_bounded (cs : list Call) (w : World) :
  (begun (wire (run cs w)) <= begun (wire w) + ticks cs)%nat.
Proof.
  revert w. induction cs as [|c cs IH]; intros w.
  - cbn [run ticks]. lia.
  - cbn [run]. specialize (IH (snd (do_call c w))).
    destruct c as [cmd|]; cbn [do_call ticks] in *.
    + destruct (queueCommand_env cmd w) as (_ & _ & _ & _ & _ & Hw & _).
      rewrite Hw in IH. exact IH.
    + rewrite update_log, begun_app in IH.
      destruct (State_eqb (_state (self w)) READY
                && negb (_queueHead (self w) =? _queueTail (self w)));
        [rewrite begun_transaction in IH | cbn [begun] in IH]; lia.
Qed.

(** ** The protocol encoder, all command types *)

(** What [sendCommand] puts on the bus and what it returns, for each command
    type: the special prefix 254 or the setting prefix 0x7C followed by the
    data byte; for a colour the setting prefix, 0x2B and the three data
    bytes; for a character the byte, doubled when it is one of the two
    prefixes.  The result is whether [endTransmission] returned 0.  A command
    of type [NONE] makes the function return [false] right after
    [beginTransmission]: nothing is written and the transaction is not
    ended. *)
Theorem sendCommand_protocol (ty : CmdType) (d0 d1 d2 len : Z) (w : World) :
  let r := sendCommand (mkLCDCommand ty d0 d1 d2 len) w in
  let rc := bus_status w (bus_ends w) in
  wire (snd r) =
    wire w ++ beginTransmission (_i2cAddr (self w)) ::
    match ty with
    | NONE => []
    | WRITE_CHAR =>
        (if (d0 =? 254) || (d0 =? 0x7C)
         then [write_byte d0; write_byte d0] else [write_byte d0])
        ++ [endTransmission rc]
    | SPECIAL_CMD => [write_byte 254; write_byte d0; endTransmission rc]
    | SETTING_CMD => [write_byte 0x7C; write_byte d0; endTransmission rc]
    | RGB_CMD =>
        [write_byte 0x7C; write_byte 0x2B; write_byte d0; write_byte d1;
         write_byte d2; endTransmission rc]
    end /\
  fst r = match ty with NONE => false | _ => rc =? 0 end /\
  self (snd r) = self w /\
  bus_ends (snd r) = match ty with NONE => bus_ends w | _ => S (bus_ends w) end.
Proof.
  cbv zeta. rewrite sendCommand_log, sendCommand_result, sendCommand_self.
  destruct (sendCommand_env (mkLCDCommand ty d0 d1 d2 len) w)
    as (_ & _ & _ & _ & _ & _ & Hbe).
  rewrite Hbe. unfold transaction, encode, send_ok. cbn [type data_0 data_1 data_2].
  change SPECIAL_COMMAND with 254. change SETTING_COMMAND with 0x7C.
  change RGB_COMMAND with 0x2B.
  destruct ty; repeat split; try reflexivity.
  destruct ((d0 =? 254) || (d0 =? 0x7C)); reflexivity.
Qed.

(** ** The timing gates and the wrap of [millis()] *)

Lemma ulong_elapsed t0 d :
  0 <= d < 2 ^ 32 -> ulong (ulong (t0 + d) - ulong t0) = d.
Proof.
  intros Hd. unfold ulong. rewrite <- Zminus_mod.
  replace (t0 + d - t0) with d by lia. apply Z.mod_small. exact Hd.
Qed.

(** The settle-time gate counts real elapsed time, across a wrap of the
    32-bit millisecond counter: if the last action was stamped at time [t0]
    and the clock now reads [t0 + d] (both before truncation to 32 bits, with
    [d] below 2^32), a tick in [PROCESSING] returns [true] and makes the
    driver [READY] exactly when [d >= _cmdTime]; it never writes on the bus
    nor touches the queue, the counter or the time stamp. *)
Theorem processing_gate (w : World) (t0 d : Z) :
  _state (self w) = PROCESSING ->
  _lastActionTime (self w) = ulong t0 ->
  clock w (clock_reads w) = t0 + d ->
  0 <= d < 2 ^ 32 ->
  let w' := snd (update w) in
  fst (update w) = (d >=? _cmdTime (self w)) /\
  _state (self w') = (if d >=? _cmdTime (self w) then READY else PROCESSING) /\
  wire w' = wire w /\
  queue_view (self w') = queue_view (self w) /\
  _errorCount (self w') = _errorCount (self w) /\
  _lastActionTime (self w') = _lastActionTime (self w).
Proof.
  intros Hst Hlast Hck Hd. cbv zeta.
  rewrite update_processing by assumption. cbv zeta.
  rewrite Hlast, Hck, ulong_elapsed by assumption.
  destruct (d >=? _cmdTime (self w)); cbn [fst snd];
    unfold with_state, set_clock_reads, set_self, set_state; cbn [self wire _state];
    rewrite ?Hst, ?Hlast; repeat split; reflexivity.
Qed.

Lemma processing_gate_witness :
  fst (update wrap_world) = (7 >=? _cmdTime (self wrap_world)).
Proof.
  refine (proj1 (processing_gate wrap_world (2 ^ 32 - 3) 7 _ _ _ _));
    vm_compute; try split; congruence.
Defined.

(** The recovery gate is the same comparison on [_errorResetTime]: before
    that much time has passed since the last action, a tick in [ERROR]
    returns [false] and changes nothing in the driver or on the bus, whatever
    has been enqueued in the meantime. *)
Theorem error_gate_closed (w : World) (t0 d : Z) :
  _state (self w) = ERROR ->
  _lastActionTime (self w) = ulong t0 ->
  clock w (clock_reads w) = t0 + d ->
  0 <= d < _errorResetTime (self w) ->
  _errorResetTime (self w) <= 2 ^ 32 ->
  fst (update w) = false /\
  self (snd (update w)) = self w /\
  wire (snd (update w)) = wire w.
Proof.
  intros Hst Hlast Hck Hd Hmax.
  rewrite update_error_wait; [repeat split; reflexivity | assumption |].
  rewrite Hlast, Hck, ulong_elapsed by lia.
  rewrite Z.geb_leb. apply Z.leb_gt. lia.
Qed.

Lemma error_gate_closed_witness :
  fst (update (with_state ERROR (fresh_world 1 (fun _ => 99) (fun _ => 0)))) = false.
Proof.
  refine (proj1 (error_gate_closed
                   (with_state ERROR (fresh_world 1 (fun _ => 99) (fun _ => 0)))
                   0 99 _ _ _ _ _));
    vm_compute; try split; congruence.
Defined.

(** ** What the operations keep *)

Ltac queue_ok_tac :=
  unfold queue_ok in *; fields;
  rewrite ?u8_mod_QUEUE_SIZE, ?length_store;
  repeat match goal with
         | |- context [?x mod QUEUE_SIZE] =>
             lazymatch goal with
             | _ : 0 <= x mod QUEUE_SIZE < QUEUE_SIZE |- _ => fail
             | _ => pose proof (Z.mod_pos_bound x QUEUE_SIZE eq_refl)
             end
         end;
  unfold QUEUE_SIZE in *; repeat split; try lia; try tauto.

Lemma queueCommand_keeps cmd w :
  let s := self w in
  let s' := self (snd (queueCommand cmd w)) in
  (queue_ok s -> queue_ok s') /\
  (_state s <> AWAITING_RESPONSE -> _state s' <> AWAITING_RESPONSE) /\
  config_view s' = config_view s /\
  (_needsFullRefresh s = true -> _needsFullRefresh s' = true).
Proof.
  cbv zeta. rewrite queueCommand_self, handleError_self. cbv zeta.
  destruct (u8 ((_queueTail (self w) + 1) mod QUEUE_SIZE) =? _queueHead (self w));
    [destruct (u8 (_errorCount (self w) + 1) >? _SerLCD0_ErrorThreshold w)|];
    unfold config_view; fields;
    (refine (conj _ (conj _ (conj _ _)));
     [intros Hok; queue_ok_tac
     |try discriminate; try tauto
     |reflexivity
     |tauto]).
Qed.

Lemma update_self w :
  self (snd (update w)) =
    let s := self w in
    let now := ulong (clock w (clock_reads w)) in
    let now' := ulong (clock w (S (clock_reads w))) in
    match _state s with
    | READY =>
        if _queueHead s =? _queueTail s then s
        else if send_ok (slot (_cmdQueue s) (_queueHead s)) w
        then set_lastActionTime now'
               (set_state PROCESSING
                  (set_queueHead (u8 ((_queueHead s + 1) mod QUEUE_SIZE)) s))
        else
          let c := u8 (_errorCount s + 1) in
          if c >? _SerLCD0_ErrorThreshold w
          then set_lastActionTime now'
                 (set_queueTail 0 (set_queueHead 0
                    (set_needsFullRefresh true (set_state ERROR (set_errorCount c s)))))
          else set_lastActionTime now' (set_errorCount c s)
    | PROCESSING =>
        if ulong (now - _lastActionTime s) >=? _cmdTime s
        then set_state READY s else s
    | ERROR =>
        if ulong (now - _lastActionTime s) >=? _errorResetTime s
        then mkSerLCD0
               (store (store (_cmdQueue s) 0 (clear_cmd (uninit w))) 1
                  (backlight_cmd 255 255 255))
               0 2 (_initTime s) (_cmdTime s) (_clearTime s)
               (_errorResetTime s) (_i2cAddr s) PROCESSING now' 0 true
        else s
    | AWAITING_RESPONSE => s
    end.
Proof.
  cbv zeta. destruct (_state (self w)) eqn:Hst.
  - destruct (Z.eqb_spec (_queueHead (self w)) (_queueTail (self w))) as [He|Hne].
    + destruct (update_no_dispatch w (or_intror He)) as (_ & _ & Hs).
      cbv zeta in Hs. rewrite Hs, Hst. reflexivity.
    + destruct (update_dispatch w Hst Hne) as (_ & _ & Hs). exact Hs.
  - assert (Hn : _state (self w) <> READY) by congruence.
    destruct (update_no_dispatch w (or_introl Hn)) as (_ & _ & Hs).
    cbv zeta in Hs. rewrite Hs, Hst. reflexivity.
  - assert (Hn : _state (self w) <> READY) by congruence.
    destruct (update_no_dispatch w (or_introl Hn)) as (_ & _ & Hs).
    cbv zeta in Hs. rewrite Hs, Hst. reflexivity.
  - assert (Hn : _state (self w) <> READY) by congruence.
    destruct (update_no_dispatch w (or_introl Hn)) as (_ & _ & Hs).
    cbv zeta in Hs. rewrite Hs, Hst. reflexivity.
Qed.

Lemma update_keeps w :
  let s := self w in
  let s' := self (snd (update w)) in
  (queue_ok s -> queue_ok s') /\
  (_state s <> AWAITING_RESPONSE -> _state s' <> AWAITING_RESPONSE) /\
  config_view s' = config_view s /\
  (_needsFullRefresh s = true -> _needsFullRefresh s' = true).
Proof.
  cbv zeta. rewrite update_self. cbv zeta.
  destruct (_state (self w)) eqn:Hst;
    repeat match goal with
           | |- context [if ?c then _ else _] => destruct c
           end;
    unfold config_view; fields;
    (refine (conj _ (conj _ (conj _ _)));
     [intros Hok; queue_ok_tac
     |rewrite ?Hst; try discriminate; try tauto
     |reflexivity
     |tauto]).
Qed.

Lemma reinitialize_keeps w :
  let s := self w in
  let s' := self (snd (reinitialize w)) in
  (queue_ok s -> queue_ok s') /\
  (_state s <> AWAITING_RESPONSE -> _state s' <> AWAITING_RESPONSE) /\
  config_view s' = config_view s /\
  (_needsFullRefresh s = true -> _needsFullRefresh s' = true).
Proof.
  cbv zeta. destruct (reinitialize_spec w) as (sr & E). rewrite E.
  unfold config_view. fields.
  refine (conj _ (conj _ (conj _ _)));
    [intros Hok; queue_ok_tac | discriminate | reflexivity | tauto].
Qed.

Lemma snd_bind_ret {A} (m : M A) w :
  snd (bind m (fun _ => ret tt) w) = snd (m w).
Proof. cbv [bind ret]. destruct (m w). reflexivity. Qed.

(** The driver after each convenience call is the driver after
    [queueCommand] on the command it builds. *)
Lemma convenience_self w :
  (forall b, self (snd (write b w)) =
     self (snd (queueCommand (mkLCDCommand WRITE_CHAR b (data_1 (uninit w))
                                (data_2 (uninit w)) 1) w))) /\
  self (snd (clear w)) = self (snd (queueCommand (clear_cmd (uninit w)) w)) /\
  self (snd (home w)) =
    self (snd (queueCommand (mkLCDCommand SPECIAL_CMD HOME_COMMAND
                               (data_1 (uninit w)) (data_2 (uninit w)) 1) w)) /\
  (forall col row, self (snd (setCursor col row w)) =
     self (snd (queueCommand (cursor_cmd (uninit w) col row) w))) /\
  (forall r g b, self (snd (setBacklight r g b w)) =
     self (snd (queueCommand (backlight_cmd r g b) w))).
Proof.
  split; [intros b; rewrite write_spec; reflexivity|].
  split; [rewrite clear_spec; reflexivity|].
  split; [rewrite home_spec; reflexivity|].
  split; [intros col row; rewrite setCursor_spec; reflexivity|].
  intros r g b. apply setBacklight_self.
Qed.

Lemma do_api_keeps a w :
  let s := self w in
  let s' := self (snd (do_api a w)) in
  (queue_ok s -> queue_ok s') /\
  (_state s <> AWAITING_RESPONSE -> _state s' <> AWAITING_RESPONSE).
Proof.
  cbv zeta. destruct (convenience_self w) as (Hwr & Hcl & Hho & Hcu & Hbl).
  destruct a; cbn [do_api]; rewrite ?snd_bind_ret;
    rewrite ?Hwr, ?Hcl, ?Hho, ?Hcu, ?Hbl;
    try (split; apply queueCommand_keeps);
    try (split; apply update_keeps);
    try (split; apply reinitialize_keeps);
    split; intros H; exact H.
Qed.

(** ** The queue stays in bounds *)

(** Whatever sequence of public calls is made on a driver whose indices are
    in range (as they are after construction), the indices stay in range and
    the queue never holds more than 31 commands; [getQueueCount] is between 0
    and 31 and is the number of commands waiting. *)
Theorem queue_bounds_invariant (l : list Api) (w : World) :
  queue_ok (self w) ->
  let s' := self (run_api l w) in
  queue_ok s' /\
  0 <= getQueueCount s' <= QUEUE_SIZE - 1 /\
  Z.of_nat (length (pending s')) = getQueueCount s'.
Proof.
  intros Hok. cbv zeta.
  assert (Hok' : queue_ok (self (run_api l w))).
  { revert w Hok. induction l as [|a l IH]; intros w Hok; [exact Hok|].
    cbn [run_api]. apply IH. apply do_api_keeps. exact Hok. }
  split; [exact Hok'|].
  pose proof (getQueueCount_mod _ Hok') as Hc.
  pose proof (Z.mod_pos_bound (_queueTail (self (run_api l w))
                               - _queueHead (self (run_api l w))) QUEUE_SIZE eq_refl).
  rewrite pending_length. unfold QUEUE_SIZE in *. split; lia.
Qed.

Lemma queue_bounds_invariant_witness :
  queue_ok (self (run_api [api_begin; api_write 65; api_update; api_setCursor 3 1]
                    (fresh_world 1 ticking_clock (fun _ => 0)))).
Proof.
  refine (proj1 (queue_bounds_invariant
                   [api_begin; api_write 65; api_update; api_setCursor 3 1]
                   (fresh_world 1 ticking_clock (fun _ => 0)) _)).
  vm_compute. repeat split; congruence.
Defined.

(** ** The reserved state *)

(** No public call ever puts the driver in [AWAITING_RESPONSE]. *)
Theorem awaiting_response_unreachable (l : list Api) (w : World) :
  _state (self w) <> AWAITING_RESPONSE ->
  _state (self (run_api l w)) <> AWAITING_RESPONSE.
Proof.
  revert w. induction l as [|a l IH]; intros w H; [exact H|].
  cbn [run_api]. apply IH. apply do_api_keeps. exact H.
Qed.

Lemma awaiting_response_unreachable_witness :
  _state (self (run_api [api_begin; api_write 65; api_update]
                  (fresh_world 1 ticking_clock (fun _ => 0))))
  <> AWAITING_RESPONSE.
Proof.
  apply (awaiting_response_unreachable [api_begin; api_write 65; api_update]
           (fresh_world 1 ticking_clock (fun _ => 0))).
  vm_compute. congruence.
Defined.

(** ** Configuration and the refresh flag over a run *)

Lemma do_call_keeps c w :
  let s := self w in
  let s' := self (snd (do_call c w)) in
  config_view s' = config_view s /\
  (_needsFullRefresh s = true -> _needsFullRefresh s' = true).
Proof.
  cbv zeta. destruct c as [cmd|]; cbn [do_call].
  - destruct (queueCommand_keeps cmd w) as (_ & _ & Hc & Hf). split; assumption.
  - destruct (update_keeps w) as (_ & _ & Hc & Hf). split; assumption.
Qed.

Lemma do_call_env c w :
  let w' := snd (do_call c w) in
  _SerLCD0_Debug w' = _SerLCD0_Debug w /\
  _SerLCD0_ErrorThreshold w' = _SerLCD0_ErrorThreshold w /\
  clock w' = clock w /\ bus_status w' = bus_status w /\ uninit w' = uninit w.
Proof.
  cbv zeta. destruct c as [cmd|]; cbn [do_call].
  - destruct (queueCommand_env cmd w) as (Hd & Ht & Hc & Hb & _ & _ & Hu).
    repeat split; assumption.
  - apply update_env.
Qed.

(** Enqueues and ticks, in any number and order, never change the timing
    members, the bus address, the error threshold or the debug flag: the
    configuration is only changed by its setters. *)
Theorem run_keeps_configuration (cs : list Call) (w : World) :
  config_view (self (run cs w)) = config_view (self w) /\
  _SerLCD0_ErrorThreshold (run cs w) = _SerLCD0_ErrorThreshold w /\
  _SerLCD0_Debug (run cs w) = _SerLCD0_Debug w.
Proof.
  revert w. induction cs as [|c cs IH]; intros w; [repeat split; reflexivity|].
  cbn [run]. destruct (IH (snd (do_call c w))) as (Hc & Ht & Hd).
  destruct (do_call_keeps c w) as (Hc' & _).
  destruct (do_call_env c w) as (Hd' & Ht' & _).
  rewrite Hc, Ht, Hd. repeat split; assumption.
Qed.

Lemma do_call_error_flag c w :
  let s := self w in
  let s' := self (snd (do_call c w)) in
  (_state s = ERROR -> _needsFullRefresh s = true) ->
  (_state s' = ERROR -> _needsFullRefresh s' = true).
Proof.
  cbv zeta. destruct c as [cmd|]; cbn [do_call].
  - rewrite queueCommand_self, handleError_self. cbv zeta.
    destruct (u8 ((_queueTail (self w) + 1) mod QUEUE_SIZE) =? _queueHead (self w));
      [destruct (u8 (_errorCount (self w) + 1) >? _SerLCD0_ErrorThreshold w)|];
      fields; tauto.
  - rewrite update_self. cbv zeta.
    destruct (_state (self w)) eqn:Hst;
      repeat match goal with
             | |- context [if ?c then _ else _] => destruct c
             end;
      fields; rewrite ?Hst; intros HJ; try discriminate; try tauto.
Qed.

Lemma run_flag_sticky cs w :
  _needsFullRefresh (self w) = true -> _needsFullRefresh (self (run cs w)) = true.
Proof.
  revert w. induction cs as [|c cs IH]; intros w H; [exact H|].
  cbn [run]. apply IH. apply do_call_keeps. exact H.
Qed.

(** An escalation is never missed by a caller that watches the refresh flag:
    if the driver is in [ERROR] at any point of a run of enqueues and ticks
    (before, between or after the calls), the flag is set when the run ends,
    even if the driver has recovered in the meantime.  (The premise rules out
    a flag cleared by hand while already in [ERROR].) *)
Theorem escalation_sets_refresh_flag (cs : list Call) (w : World) :
  (_state (self w) = ERROR -> _needsFullRefresh (self w) = true) ->
  no_escalation cs w = false ->
  _needsFullRefresh (self (run cs w)) = true.
Proof.
  revert w. induction cs as [|c cs IH]; intros w HJ Hesc.
  - cbn [no_escalation run] in *. rewrite andb_true_r in Hesc.
    apply HJ. destruct (_state (self w)); try discriminate. reflexivity.
  - cbn [no_escalation run] in *.
    destruct (State_eqb (_state (self w)) ERROR) eqn:Hst; cbn [negb andb] in Hesc.
    + apply run_flag_sticky. apply do_call_keeps. apply HJ.
      destruct (_state (self w)); try discriminate. reflexivity.
    + apply IH; [|exact Hesc]. apply do_call_error_flag. exact HJ.
Qed.

Lemma escalation_sets_refresh_flag_witness :
  _needsFullRefresh
    (self (run accumulate_calls
             (snd (clearRefreshFlag accumulate_world)))) = true.
Proof.
  apply (escalation_sets_refresh_flag accumulate_calls
           (snd (clearRefreshFlag accumulate_world))).
  - vm_compute. congruence.
  - vm_compute. reflexivity.
Defined.

(** ** The debug flag *)

Lemma queueCommand_clock_reads cmd w :
  clock_reads (snd (queueCommand cmd w)) =
    if fst (queueCommand cmd w) then clock_reads w else S (clock_reads w).
Proof.
  rewrite queueCommand_spec. destruct (handleError_spec w) as (sr & E). rewrite E.
  destruct (u8 ((_queueTail (self w) + 1) mod QUEUE_SIZE) =? _queueHead (self w));
    reflexivity.
Qed.

Lemma processNextCommand_bus_ends w :
  _state (self w) = READY -> _queueHead (self w) <> _queueTail (self w) ->
  bus_ends (snd (processNextCommand w)) =
    bus_ends (snd (sendCommand (slot (_cmdQueue (self w)) (_queueHead (self w))) w)).
Proof.
  intros Hst Hne. unfold processNextCommand. cbv [bind ret this assign millis].
  rewrite Hst. apply Z.eqb_neq in Hne. rewrite Hne. cbn [State_eqb negb orb].
  destruct (sendCommand (slot (_cmdQueue (self w)) (_queueHead (self w))) w)
    as [ok w1].
  destruct ok.
  - reflexivity.
  - destruct (handleError_spec w1) as (sr & E). rewrite E. reflexivity.
Qed.

(** A tick consumes one answer of the bus exactly when it completes a
    transaction. *)
Lemma update_bus_ends w :
  bus_ends (snd (update w)) =
    if State_eqb (_state (self w)) READY
       && negb (_queueHead (self w) =? _queueTail (self w))
    then match type (slot (_cmdQueue (self w)) (_queueHead (self w))) with
         | NONE => bus_ends w
         | _ => S (bus_ends w)
         end
    else bus_ends w.
Proof.
  destruct (_state (self w)) eqn:Hst; cbn [State_eqb andb].
  - destruct (Z.eqb_spec (_queueHead (self w)) (_queueTail (self w))) as [He|Hne];
      cbn [negb].
    + rewrite update_ready_empty by assumption. reflexivity.
    + rewrite update_ready_nonempty by assumption.
      rewrite processNextCommand_bus_ends by assumption.
      match goal with |- context [sendCommand ?c ?W] =>
        destruct (sendCommand_env c W) as (_ & _ & _ & _ & _ & _ & Hbe) end.
      exact Hbe.
  - rewrite update_processing by assumption. cbv zeta.
    destruct (ulong (ulong (clock w (clock_reads w)) - _lastActionTime (self w))
                >=? _cmdTime (self w)); reflexivity.
  - rewrite update_awaiting by assumption. reflexivity.
  - destruct (ulong (ulong (clock w (clock_reads w)) - _lastActionTime (self w))
                >=? _errorResetTime (self w)) eqn:He.
    + destruct (update_error_recover w Hst He) as (sr & E). rewrite E. reflexivity.
    + rewrite update_error_wait by assumption. reflexivity.
Qed.

Lemma update_result w :
  fst (update w) =
    match _state (self w) with
    | READY =>
        if _queueHead (self w) =? _queueTail (self w) then true
        else send_ok (slot (_cmdQueue (self w)) (_queueHead (self w))) w
    | PROCESSING =>
        ulong (ulong (clock w (clock_reads w)) - _lastActionTime (self w))
          >=? _cmdTime (self w)
    | _ => false
    end.
Proof.
  destruct (_state (self w)) eqn:Hst.
  - destruct (Z.eqb_spec (_queueHead (self w)) (_queueTail (self w))) as [He|Hne].
    + rewrite update_ready_empty by assumption. reflexivity.
    + apply update_dispatch; assumption.
  - rewrite update_processing by assumption. reflexivity.
  - rewrite update_awaiting by assumption. reflexivity.
  - destruct (ulong (ulong (clock w (clock_reads w)) - _lastActionTime (self w))
                >=? _errorResetTime (self w)) eqn:He.
    + destruct (update_error_recover w Hst He) as (sr & E). rewrite E. reflexivity.
    + rewrite update_error_wait by assumption. reflexivity.
Qed.

Lemma do_call_same_but_debug c w1 w2 :
  same_but_debug w1 w2 ->
  fst (do_call c w1) = fst (do_call c w2) /\
  same_but_debug (snd (do_call c w1)) (snd (do_call c w2)).
Proof.
  intros (Hs & Ht & Hc & Hr & Hb & He & Hw & Hu). unfold same_but_debug.
  destruct (do_call_env c w1) as (_ & Ht1 & Hc1 & Hb1 & Hu1).
  destruct (do_call_env c w2) as (_ & Ht2 & Hc2 & Hb2 & Hu2).
  rewrite Ht1, Ht2, Hc1, Hc2, Hb1, Hb2, Hu1, Hu2.
  destruct c as [cmd|]; cbn [do_call].
  - assert (Hres : fst (queueCommand cmd w1) = fst (queueCommand cmd w2))
      by (rewrite !queueCommand_result, Hs; reflexivity).
    destruct (queueCommand_env cmd w1) as (_ & _ & _ & _ & He1 & Hw1 & _).
    destruct (queueCommand_env cmd w2) as (_ & _ & _ & _ & He2 & Hw2 & _).
    rewrite !queueCommand_clock_reads, !queueCommand_self, !handleError_self.
    cbv zeta. rewrite Hres, He1, He2, Hw1, Hw2, Hs, Ht, Hc, Hr.
    repeat split; assumption || reflexivity.
  - assert (Hok : forall cmd, send_ok cmd w1 = send_ok cmd w2)
      by (intros cmd; unfold send_ok; rewrite Hb, He; reflexivity).
    rewrite !update_result, !update_self, !update_clock_reads,
      !update_bus_ends, !update_log.
    cbv zeta. rewrite !Hok, Hs, Ht, Hc, Hr, Hb, He, Hw, Hu.
    repeat split; reflexivity.
Qed.

(** The debug flag has no functional effect: two drivers that differ only in
    the flag (and in what they have printed) return the same results over any
    run of enqueues and ticks, and end with the same driver state, the same
    bus log and the same position in the clock and bus-answer streams. *)
Theorem debug_flag_has_no_effect (cs : list Call) (w1 w2 : World) :
  same_but_debug w1 w2 ->
  results cs w1 = results cs w2 /\
  same_but_debug (run cs w1) (run cs w2).
Proof.
  revert w1 w2. induction cs as [|c cs IH]; intros w1 w2 H.
  - split; [reflexivity | exact H].
  - cbn [results run]. destruct (do_call_same_but_debug c w1 w2 H) as (Hr & H').
    destruct (IH _ _ H') as (Hrs & Hfin).
    rewrite Hr, Hrs. split; [reflexivity | exact Hfin].
Qed.

Lemma debug_flag_has_no_effect_witness :
  wire (run accumulate_calls (set_Debug true accumulate_world)) =
    wire (run accumulate_calls accumulate_world).
Proof.
  refine (proj1 (proj2 (proj2 (proj2 (proj2 (proj2 (proj2 (proj2
    (debug_flag_has_no_effect accumulate_calls
       (set_Debug true accumulate_world) accumulate_world _)))))))));
    repeat split; reflexivity.
Defined.

(** With the flag set the same run does print. *)
Example debug_run_prints :
  serial (run accumulate_calls accumulate_world) = [] /\
  serial (run accumulate_calls (set_Debug true accumulate_world)) <> [].
Proof. vm_compute. split; [reflexivity | discriminate]. Qed.

(** ** Draining the queue *)






(** On that run the bytes are 'A', then 254 doubled. *)
Example drain_bytes :
  wire_bytes
    (wire (run (repeat call_update 4)
             (snd (queueCommand_all [char_cmd 65; char_cmd 254]
                     (fresh_world 1 ticking_clock (fun _ => 0))))))
  = [65; 254; 254].
Proof. vm_compute. reflexivity. Qed.

(** ** Failures that escalate *)

Lemma pending_view s s' :
  queue_view s' = queue_view s -> pending s' = pending s.
Proof.
  unfold queue_view. intros H. injection H as Hq Hh Ht.
  apply pending_ext; assumption.
Qed.

(** An enqueue on a full queue returns [false], leaves bus and array alone,
    counts one error and re-stamps [_lastActionTime] with the current time.
    If the counter is then above the threshold the driver goes to [ERROR],
    the 31 waiting commands are dropped and the refresh flag is set;
    otherwise state, queue and flag are unchanged. *)
Theorem enqueue_on_full_queue (cmd : LCDCommand) (w : World) :
  queue_ok (self w) ->
  length (pending (self w)) = 31%nat ->
  let s := self w in
  let s' := self (snd (queueCommand cmd w)) in
  fst (queueCommand cmd w) = false /\
  wire (snd (queueCommand cmd w)) = wire w /\
  _cmdQueue s' = _cmdQueue s /\
  _errorCount s' = u8 (_errorCount s + 1) /\
  _lastActionTime s' = ulong (clock w (clock_reads w)) /\
  if u8 (_errorCount s + 1) >? _SerLCD0_ErrorThreshold w
  then _state s' = ERROR /\ pending s' = [] /\ _needsFullRefresh s' = true
  else _state s' = _state s /\ pending s' = pending s /\
       _needsFullRefresh s' = _needsFullRefresh s.
Proof.
  intros Hok Hfull. cbv zeta.
  rewrite queueCommand_full by assumption. cbn [fst snd].
  destruct (handleError_spec w) as (sr & E). rewrite E. cbn [snd self wire].
  destruct (u8 (_errorCount (self w) + 1) >? _SerLCD0_ErrorThreshold w);
    fields;
    (split; [reflexivity|]); (split; [reflexivity|]); (split; [reflexivity|]);
    (split; [reflexivity|]); (split; [reflexivity|]);
    (split; [reflexivity|]); split; reflexivity.
Qed.

Lemma enqueue_on_full_queue_witness :
  fst (queueCommand (char_cmd 66)
         (snd (queueCommand_all (repeat (char_cmd 65) 31)
                 (fresh_world 0 (fun _ => 0) (fun _ => 0))))) = false.
Proof.
  refine (proj1 (enqueue_on_full_queue (char_cmd 66)
                   (snd (queueCommand_all (repeat (char_cmd 65) 31)
                           (fresh_world 0 (fun _ => 0) (fun _ => 0)))) _ _)).
  - vm_compute. repeat split; congruence.
  - vm_compute. reflexivity.
Defined.

(** A tick whose transaction fails with the counter going above the
    threshold: [update] returns [false], the driver is in [ERROR], the failed
    command and everything behind it are dropped, the refresh flag is set and
    the time stamp renewed; the bus log has the failed transaction. *)
Theorem failing_tick_escalates (w : World) (c : LCDCommand) (rest : list LCDCommand) :
  queue_ok (self w) ->
  _state (self w) = READY ->
  pending (self w) = c :: rest ->
  send_ok c w = false ->
  _SerLCD0_ErrorThreshold w < u8 (_errorCount (self w) + 1) ->
  let s' := self (snd (update w)) in
  fst (update w) = false /\
  _state s' = ERROR /\
  pending s' = [] /\
  _needsFullRefresh s' = true /\
  _errorCount s' = u8 (_errorCount (self w) + 1) /\
  _lastActionTime s' = ulong (clock w (S (clock_reads w))) /\
  wire (snd (update w)) =
    wire w ++ transaction (_i2cAddr (self w)) c (bus_status w (bus_ends w)).
Proof.
  intros Hok Hst Hp Hfail Hgt. cbv zeta.
  destruct (head_of_pending _ _ _ Hok Hp) as (Hne & Hslot & _ & _).
  rewrite update_result, update_self, update_log. cbv zeta.
  rewrite Hst, Hslot, Hfail. apply Z.eqb_neq in Hne. rewrite Hne.
  assert (E : (u8 (_errorCount (self w) + 1) >? _SerLCD0_ErrorThreshold w) = true)
    by (rewrite Z.gtb_ltb; apply Z.ltb_lt; exact Hgt).
  rewrite E. cbn [State_eqb andb negb]. fields.
  split; [reflexivity|]. split; [reflexivity|].
  split; [apply pending_reset; reflexivity|].
  repeat split; reflexivity.
Qed.

Lemma failing_tick_escalates_witness :
  _state (self (snd (update (one_char_world 0 (fun _ => 4))))) = ERROR.
Proof.
  refine (proj1 (proj2
    (failing_tick_escalates (one_char_world 0 (fun _ => 4)) (char_cmd 65) []
       _ _ _ _ _)));
    vm_compute; repeat split; congruence.
Defined.

(** ** Occupancy *)

Lemma getQueueCount_length s :
  queue_ok s -> getQueueCount s = Z.of_nat (length (pending s)).
Proof.
  intros Hok. rewrite pending_length, Z2Nat.id; [reflexivity|].
  rewrite getQueueCount_mod by assumption.
  apply Z.mod_pos_bound. reflexivity.
Qed.

(** [getQueueCount] follows the queue: one more after an accepted enqueue,
    one less after a tick that sent the head command, 0 after an escalation,
    2 after a recovery (the two reinitialisation commands), unchanged
    otherwise. *)
Theorem queue_count_accounting (c : Call) (w : World) :
  queue_ok (self w) ->
  let s := self w in
  let escalates := u8 (_errorCount s + 1) >? _SerLCD0_ErrorThreshold w in
  getQueueCount (self (snd (do_call c w))) =
    match c with
    | call_queueCommand _ =>
        if fst (do_call c w) then getQueueCount s + 1
        else if escalates then 0 else getQueueCount s
    | call_update =>
        match _state s with
        | READY =>
            if _queueHead s =? _queueTail s then getQueueCount s
            else if fst (do_call c w) then getQueueCount s - 1
            else if escalates then 0 else getQueueCount s
        | ERROR =>
            if ulong (ulong (clock w (clock_reads w)) - _lastActionTime s)
                 >=? _errorResetTime s
            then 2 else getQueueCount s
        | _ => getQueueCount s
        end
    end.
Proof.
  intros Hok. cbv zeta. destruct c as [cmd|]; cbn [do_call].
  - pose proof (pending_le _ Hok) as Hle.
    destruct (Nat.eq_dec (length (pending (self w))) 31%nat) as [Hfull|Hroom].
    + rewrite queueCommand_full by assumption. cbn [fst snd].
      rewrite handleError_self. cbv zeta.
      destruct (u8 (_errorCount (self w) + 1) >? _SerLCD0_ErrorThreshold w);
        reflexivity.
    + destruct (queueCommand_room cmd w Hok) as (E & Hne); [lia|].
      rewrite E. cbn [fst snd self set_self].
      rewrite !getQueueCount_length
        by (assumption || (apply queue_ok_enqueue; assumption)).
      rewrite pending_enqueue, length_app by assumption. cbn [length]. lia.
  - rewrite update_result, update_self. cbv zeta.
    destruct (_state (self w)) eqn:Hst.
    + destruct (Z.eqb_spec (_queueHead (self w)) (_queueTail (self w))) as [He|Hne];
        [reflexivity|].
      destruct (send_ok (slot (_cmdQueue (self w)) (_queueHead (self w))) w).
      * pose proof (pending_dequeue _ Hok Hne) as Hp.
        destruct (head_of_pending _ _ _ Hok Hp) as (_ & _ & _ & Hok').
        rewrite u8_mod_QUEUE_SIZE in *.
        change (getQueueCount
                  (set_lastActionTime (ulong (clock w (S (clock_reads w))))
                     (set_state PROCESSING
                        (set_queueHead ((_queueHead (self w) + 1) mod QUEUE_SIZE)
                           (self w)))))
          with (getQueueCount
                  (set_queueHead ((_queueHead (self w) + 1) mod QUEUE_SIZE) (self w))).
        rewrite !getQueueCount_length by assumption.
        apply (f_equal (@length _)) in Hp. cbn [length] in Hp. lia.
      * destruct (u8 (_errorCount (self w) + 1) >? _SerLCD0_ErrorThreshold w);
          reflexivity.
    + destruct (ulong (ulong (clock w (clock_reads w)) - _lastActionTime (self w))
                  >=? _cmdTime (self w)); reflexivity.
    + reflexivity.
    + destruct (ulong (ulong (clock w (clock_reads w)) - _lastActionTime (self w))
                  >=? _errorResetTime (self w)); reflexivity.
Qed.

Lemma queue_count_accounting_witness :
  getQueueCount (self (snd (do_call call_update (one_char_world 1 (fun _ => 0)))))
  = getQueueCount (self (one_char_world 1 (fun _ => 0))) - 1.
Proof.
  refine (queue_count_accounting call_update (one_char_world 1 (fun _ => 0)) _).
  vm_compute. repeat split; congruence.
Defined.

(** ** The convenience calls *)

Lemma queueCommand_room_effect cmd w :
  queue_ok (self w) -> (length (pending (self w)) < 31)%nat ->
  let w' := snd (queueCommand cmd w) in
  fst (queueCommand cmd w) = true /\
  pending (self w') = pending (self w) ++ [cmd] /\
  wire w' = wire w /\ clock_reads w' = clock_reads w /\
  _state (self w') = _state (self w) /\
  _errorCount (self w') = _errorCount (self w).
Proof.
  intros Hok Hroom. cbv zeta.
  destruct (queueCommand_room cmd w Hok Hroom) as (E & Hne). rewrite E.
  cbn [fst snd self set_self wire clock_reads].
  rewrite pending_enqueue by assumption. repeat split; reflexivity.
Qed.



(** ** Cursor addresses *)





(** ** Initialisation *)

(** [begin] (and [reinitialize]) from any driver state: whatever was queued
    is discarded and the queue holds exactly the clear command followed by
    the white-backlight command; the error counter is 0, the refresh flag is
    set, the driver is [PROCESSING] with the current time as time stamp;
    nothing is written on the bus and the configuration is kept. *)
Theorem begin_resets (w : World) :
  length (_cmdQueue (self w)) = Z.to_nat QUEUE_SIZE ->
  let w' := snd (begin w) in
  pending (self w') = [clear_cmd (uninit w); backlight_cmd 255 255 255] /\
  queue_ok (self w') /\
  _state (self w') = PROCESSING /\
  _errorCount (self w') = 0 /\
  _needsFullRefresh (self w') = true /\
  _lastActionTime (self w') = ulong (clock w (clock_reads w)) /\
  wire w' = wire w /\
  config_view (self w') = config_view (self w) /\
  snd (reinitialize w) = w'.
Proof.
  intros Hl. cbv zeta. unfold begin.
  destruct (reinitialize_spec w) as (sr & E). rewrite E. cbn [snd self wire].
  rewrite pending_reinitialized by assumption.
  split; [reflexivity|]. split; [|repeat split; reflexivity].
  unfold queue_ok. cbn [_queueHead _queueTail _cmdQueue].
  rewrite !length_store. unfold QUEUE_SIZE in *. repeat split; try lia.
Qed.

Lemma begin_resets_witness :
  _state (self (snd (begin (one_char_world 1 (fun _ => 0))))) = PROCESSING.
Proof.
  refine (proj1 (proj2 (proj2 (begin_resets (one_char_world 1 (fun _ => 0)) _)))).
  vm_compute. reflexivity.
Defined.







(** ** What the public calls put in the queue *)

Lemma queueCommand_pending cmd w :
  queue_ok (self w) ->
  let p' := pending (self (snd (queueCommand cmd w))) in
  p' = pending (self w) ++ [cmd] \/ p' = pending (self w) \/ p' = [].
Proof.
  intros Hok. cbv zeta. pose proof (pending_le _ Hok) as Hle.
  destruct (Nat.eq_dec (length (pending (self w))) 31%nat) as [Hfull|Hroom].
  - rewrite queueCommand_full by assumption. cbn [snd].
    rewrite handleError_self. cbv zeta.
    destruct (u8 (_errorCount (self w) + 1) >? _SerLCD0_ErrorThreshold w).
    + right. right. apply pending_reset; reflexivity.
    + right. left. apply pending_ext; reflexivity.
  - left. apply queueCommand_room_effect; [assumption | lia].
Qed.

Lemma update_pending w :
  queue_ok (self w) ->
  let p' := pending (self (snd (update w))) in
  p' = pending (self w) \/ p' = tl (pending (self w)) \/ p' = [] \/
  p' = [clear_cmd (uninit w); backlight_cmd 255 255 255].
Proof.
  intros Hok. cbv zeta. rewrite update_self. cbv zeta.
  destruct (_state (self w)) eqn:Hst.
  - destruct (Z.eqb_spec (_queueHead (self w)) (_queueTail (self w))) as [He|Hne];
      [left; reflexivity|].
    destruct (send_ok (slot (_cmdQueue (self w)) (_queueHead (self w))) w).
    + right. left. rewrite (pending_dequeue _ Hok Hne). cbn [tl].
      rewrite u8_mod_QUEUE_SIZE. apply pending_ext; reflexivity.
    + destruct (u8 (_errorCount (self w) + 1) >? _SerLCD0_ErrorThreshold w).
      * right. right. left. apply pending_reset; reflexivity.
      * left. apply pending_ext; reflexivity.
  - destruct (ulong (ulong (clock w (clock_reads w)) - _lastActionTime (self w))
                >=? _cmdTime (self w)); left; [apply pending_ext|]; reflexivity.
  - left. reflexivity.
  - destruct (ulong (ulong (clock w (clock_reads w)) - _lastActionTime (self w))
                >=? _errorResetTime (self w)); [|left; reflexivity].
    right. right. right. apply pending_reinitialized. apply Hok.
Qed.

Lemma Forall_tl {A} (P : A -> Prop) l : Forall P l -> Forall P (tl l).
Proof. intros H. destruct H; [constructor | assumption]. Qed.

Lemma do_api_built a w :
  queue_ok (self w) ->
  Forall built_by_api (pending (self w)) ->
  Forall built_by_api (pending (self (snd (do_api a w)))).
Proof.
  intros Hok Hall.
  assert (Hq : forall cmd, built_by_api cmd ->
            Forall built_by_api (pending (self (snd (queueCommand cmd w))))).
  { intros cmd Hb. destruct (queueCommand_pending cmd w Hok) as [E | [E | E]];
      cbv zeta in E; rewrite E.
    - apply Forall_app. split; [assumption|]. constructor; [assumption | constructor].
    - assumption.
    - constructor. }
  assert (Hinit : Forall built_by_api
                    [clear_cmd (uninit w); backlight_cmd 255 255 255]).
  { constructor; [right; left; reflexivity|].
    constructor; [right; right; reflexivity | constructor]. }
  destruct (convenience_self w) as (Hwr & Hcl & Hho & Hcu & Hbl).
  destruct a; cbn [do_api]; rewrite ?snd_bind_ret;
    rewrite ?Hwr, ?Hcl, ?Hho, ?Hcu, ?Hbl;
    try (apply Hq; unfold built_by_api, clear_cmd, cursor_cmd, backlight_cmd;
         cbn [type]; tauto);
    try exact Hall.
  - destruct (begin_resets w (proj2 (proj2 Hok))) as (Hp & _). cbv zeta in Hp.
    rewrite Hp. exact Hinit.
  - destruct (begin_resets w (proj2 (proj2 Hok))) as (_ & _ & _ & _ & _ & _ & _ & _ & E).
    cbv zeta in E. rewrite E.
    destruct (begin_resets w (proj2 (proj2 Hok))) as (Hp & _). cbv zeta in Hp.
    rewrite Hp. exact Hinit.
  - destruct (update_pending w Hok) as [E | [E | [E | E]]]; cbv zeta in E; rewrite E.
    + assumption.
    + apply Forall_tl. assumption.
    + constructor.
    + exact Hinit.
Qed.

(** The public calls only ever queue characters, special commands and
    colours: if the queue holds only such commands, it still does after any
    sequence of public calls.  So the driver never dispatches a command of
    type [NONE] (every transaction it begins is ended) and never a
    setting-type command. *)
Theorem api_queues_only_its_commands (l : list Api) (w : World) :
  queue_ok (self w) ->
  Forall built_by_api (pending (self w)) ->
  Forall built_by_api (pending (self (run_api l w))).
Proof.
  revert w. induction l as [|a l IH]; intros w Hok Hall; [exact Hall|].
  cbn [run_api]. apply IH.
  - apply do_api_keeps. exact Hok.
  - apply do_api_built; assumption.
Qed.

Lemma api_queues_only_its_commands_witness :
  Forall built_by_api
    (pending (self (run_api [api_begin; api_write 65; api_update; api_setCursor 3 1]
                      (fresh_world 1 ticking_clock (fun _ => 0))))).
Proof.
  apply (api_queues_only_its_commands
           [api_begin; api_write 65; api_update; api_setCursor 3 1]
           (fresh_world 1 ticking_clock (fun _ => 0))).
  - vm_compute. repeat split; congruence.
  - vm_compute. constructor.
Defined.

(** ** Recovery runs to completion *)



(** ** A failed enqueue and the settle time *)

(** [handleError] stamps the time of every failure, also of an enqueue on a
    full queue.  So while the driver is [PROCESSING] with a full queue, an
    enqueue that fails without escalating restarts the settle time: a tick
    less than [_cmdTime] after that enqueue still finds the driver
    [PROCESSING] and returns [false], however long ago the last command was
    sent. *)
Theorem failed_enqueue_restarts_settle_time (cmd : LCDCommand) (w : World) (d : Z) :
  queue_ok (self w) ->
  length (pending (self w)) = 31%nat ->
  _state (self w) = PROCESSING ->
  u8 (_errorCount (self w) + 1) <= _SerLCD0_ErrorThreshold w ->
  clock w (S (clock_reads w)) = clock w (clock_reads w) + d ->
  0 <= d < _cmdTime (self w) ->
  _cmdTime (self w) <= 2 ^ 32 ->
  let w1 := snd (queueCommand cmd w) in
  fst (queueCommand cmd w) = false /\
  _lastActionTime (self w1) = ulong (clock w (clock_reads w)) /\
  fst (update w1) = false /\
  _state (self (snd (update w1))) = PROCESSING /\
  wire (snd (update w1)) = wire w.
Proof.
  intros Hok Hfull Hst Hle Hck Hd Hmax. cbv zeta.
  rewrite queueCommand_full by assumption. cbn [fst snd].
  destruct (handleError_spec w) as (sr & E). rewrite E. cbn [snd]. clear E.
  assert (Hgt : (u8 (_errorCount (self w) + 1) >? _SerLCD0_ErrorThreshold w) = false)
    by (rewrite Z.gtb_ltb; apply Z.ltb_ge; exact Hle).
  rewrite Hgt.
  match goal with |- context [update ?W] => remember W as W1 eqn:EW1 end.
  assert (Hs1 : self W1 =
                set_lastActionTime (ulong (clock w (clock_reads w)))
                  (set_errorCount (u8 (_errorCount (self w) + 1)) (self w)))
    by (rewrite EW1; reflexivity).
  assert (Hc1 : clock W1 = clock w) by (rewrite EW1; reflexivity).
  assert (Hr1 : clock_reads W1 = S (clock_reads w)) by (rewrite EW1; reflexivity).
  assert (Hw1 : wire W1 = wire w) by (rewrite EW1; reflexivity).
  clear EW1.
  assert (Hst1 : _state (self W1) = PROCESSING) by (rewrite Hs1; exact Hst).
  assert (Hlast1 : _lastActionTime (self W1) = ulong (clock w (clock_reads w)))
    by (rewrite Hs1; reflexivity).
  assert (Hcmd1 : _cmdTime (self W1) = _cmdTime (self w)) by (rewrite Hs1; reflexivity).
  assert (Hck1 : clock W1 (clock_reads W1) = clock w (clock_reads w) + d)
    by (rewrite Hc1, Hr1; exact Hck).
  assert (Hd1 : 0 <= d < 2 ^ 32) by lia.
  destruct (processing_gate W1 (clock w (clock_reads w)) d Hst1 Hlast1 Hck1 Hd1)
    as (Hres & Hstate & Hwire & _).
  assert (Hno : (d >=? _cmdTime (self W1)) = false)
    by (rewrite Hcmd1, Z.geb_leb; apply Z.leb_gt; lia).
  rewrite Hno in Hres, Hstate. rewrite Hres, Hstate, Hwire, Hw1, Hlast1.
  repeat split; reflexivity.
Qed.

Lemma failed_enqueue_restarts_settle_time_witness :
  fst (update (snd (queueCommand (char_cmd 66)
                      (with_state PROCESSING
                         (snd (queueCommand_all (repeat (char_cmd 65) 31)
                                 (fresh_world 1 (fun k => 1000 + Z.of_nat k)
                                    (fun _ => 0)))))))) = false.
Proof.
  refine (proj1 (proj2 (proj2
    (failed_enqueue_restarts_settle_time (char_cmd 66)
       (with_state PROCESSING
          (snd (queueCommand_all (repeat (char_cmd 65) 31)
                  (fresh_world 1 (fun k => 1000 + Z.of_nat k) (fun _ => 0)))))
       1 _ _ _ _ _ _ _)))).
  - vm_compute. repeat split; congruence.
  - vm_compute. reflexivity.
  - reflexivity.
  - vm_compute. congruence.
  - vm_compute. reflexivity.
  - vm_compute. split; congruence.
  - vm_compute. congruence.
Defined.
